(** * Stream transcoder of the OpenAI-to-NIM proxy (server.js)

    A shallow embedding of the streaming branch of the chat-completions
    handler: the three listeners registered on [response.data]
    ([data], [end], [error]) together with the part of the JavaScript
    runtime they call into.

    - [Module JS] models the runtime: strings as sequences of UTF-16 code
      units, [Buffer.prototype.toString] (UTF-8 decoding), the string
      methods used by the handler, Numbers, JSON values, truthiness, the
      [+] operator, property access, [JSON.parse] and [JSON.stringify].
    - [Module Transcoder] is the handler itself, statement by statement:
      the listeners take the state of the request and return what they
      send to the response and the new state.
    - [Module Spec] holds the vocabulary of the specification: the data
      model, the truth table of the combiner, markers and traces.
    - The rest of the file states and proves the properties, C1 to C10. *)

From Stdlib Require Import List ZArith NArith Lia Bool Arith.
From Stdlib Require Import Strings.String Strings.Ascii Strings.Byte.
From Stdlib Require Import Floats.SpecFloat.
Import ListNotations.

Set Warnings "-register-all".

(* ================================================================== *)
(** * The JavaScript runtime used by the handler                       *)
(* ================================================================== *)

Module JS.

(** ** Strings: sequences of UTF-16 code units *)

Definition code_unit := N.
Definition jsstring := list code_unit.

Local Open Scope N_scope.

(** An ASCII literal as a JavaScript string. *)
Definition js (s : string) : jsstring :=
  map N_of_ascii (list_ascii_of_string s).

(** The same, with every apostrophe of the literal standing for a double
    quote (code unit 34), so that JSON text can be written down. *)
Definition jq (s : string) : jsstring :=
  map (fun c => if c =? 39 then 34 else c) (js s).

Definition LF : code_unit := 10.

Fixpoint str_eqb (a b : jsstring) : bool :=
  match a, b with
  | [], [] => true
  | x :: a', y :: b' => (x =? y) && str_eqb a' b'
  | _, _ => false
  end.

(** ** [Buffer.prototype.toString()]: UTF-8 decoding of one chunk

    The decoder of the WHATWG Encoding standard, which V8 follows: an
    ill-formed or truncated sequence is replaced by U+FFFD, and the byte
    that broke a sequence is decoded again as the start of a new one.  The
    decoder state is (code point so far, continuation bytes still needed,
    lower and upper bound of the next continuation byte). *)

Definition REPLACEMENT : N := 65533.

Definition utf8_state := (N * N * N * N)%type.
Definition utf8_init : utf8_state := (0, 0, 128, 191).

Definition utf8_lead (x : N) : list N * utf8_state :=
  if x <=? 127 then ([x], utf8_init)
  else if (194 <=? x) && (x <=? 223) then ([], (N.land x 31, 1, 128, 191))
  else if (224 <=? x) && (x <=? 239) then
    ([], (N.land x 15, 2, (if x =? 224 then 160 else 128),
                          (if x =? 237 then 159 else 191)))
  else if (240 <=? x) && (x <=? 244) then
    ([], (N.land x 7, 3, (if x =? 240 then 144 else 128),
                         (if x =? 244 then 143 else 191)))
  else ([REPLACEMENT], utf8_init).

Fixpoint utf8_run (st : utf8_state) (bs : list byte) : list N :=
  let '(cp, needed, lower, upper) := st in
  match bs with
  | [] => if needed =? 0 then [] else [REPLACEMENT]
  | b :: rest =>
      let x := Byte.to_N b in
      if needed =? 0 then
        let '(out, st') := utf8_lead x in out ++ utf8_run st' rest
      else if (lower <=? x) && (x <=? upper) then
        let cp' := N.lor (N.shiftl cp 6) (N.land x 63) in
        if needed =? 1 then cp' :: utf8_run utf8_init rest
        else utf8_run (cp', needed - 1, 128, 191) rest
      else
        let '(out, st') := utf8_lead x in
        REPLACEMENT :: out ++ utf8_run st' rest
  end.

(** A code point as one code unit or a surrogate pair. *)
Definition utf16_of_code_point (cp : N) : jsstring :=
  if cp <? 65536 then [cp]
  else let c := cp - 65536 in [55296 + c / 1024; 56320 + c mod 1024].

Definition Buffer_toString (chunk : list byte) : jsstring :=
  flat_map utf16_of_code_point (utf8_run utf8_init chunk).

(** ** String methods *)

(** [s.split('\n')]: never empty; the empty string splits into [['']]. *)
Fixpoint split_nl (s : jsstring) : list jsstring :=
  match s with
  | [] => [[]]
  | c :: s' =>
      if c =? LF then [] :: split_nl s'
      else match split_nl s' with
           | l :: ls => (c :: l) :: ls
           | [] => [[c]]
           end
  end.

(** WhiteSpace and LineTerminator code points, the ones [trim] strips. *)
Definition is_space (c : code_unit) : bool :=
  ((9 <=? c) && (c <=? 13)) || (c =? 32) || (c =? 160) || (c =? 5760)
  || ((8192 <=? c) && (c <=? 8202)) || (c =? 8232) || (c =? 8233)
  || (c =? 8239) || (c =? 8287) || (c =? 12288) || (c =? 65279).

Fixpoint trim_start (s : jsstring) : jsstring :=
  match s with
  | c :: s' => if is_space c then trim_start s' else s
  | [] => []
  end.

Definition trim (s : jsstring) : jsstring :=
  rev (trim_start (rev (trim_start s))).

Fixpoint startsWith (s prefix : jsstring) : bool :=
  match prefix, s with
  | [], _ => true
  | p :: prefix', c :: s' => (p =? c) && startsWith s' prefix'
  | _ :: _, [] => false
  end.

Fixpoint includes (s needle : jsstring) : bool :=
  startsWith s needle ||
  match s with
  | [] => false
  | _ :: s' => includes s' needle
  end.

Definition slice (s : jsstring) (start : nat) : jsstring := skipn start s.

(** ** Numbers: IEEE 754 binary64, as [spec_float] at precision 53 *)

Definition number := spec_float.
Definition prec : Z := 53.
Definition emax : Z := 1024.

Local Open Scope Z_scope.

(** The Number nearest to [m * 10^e] (ties to even): what a decimal literal
    of JSON text denotes. *)
Definition Number_of_decimal (neg : bool) (m : N) (e : Z) : number :=
  match m with
  | N0 => S754_zero neg
  | Npos p =>
      if 0 <=? e then
        match Zpos p * 10 ^ e with
        | Zpos q => binary_round prec emax neg q 0
        | _ => S754_zero neg
        end
      else
        SFdiv prec emax (S754_finite neg p 0)
                        (S754_finite false (Z.to_pos (10 ^ (- e))) 0)
  end.

Fixpoint digits_fuel (fuel : nat) (n : N) (acc : jsstring) : jsstring :=
  match fuel with
  | O => acc
  | S f =>
      let acc' := (48 + n mod 10)%N :: acc in
      if (n / 10 =? 0)%N then acc' else digits_fuel f (n / 10)%N acc'
  end.

(** The decimal digits of a natural number, most significant first. *)
Definition decimal_digits (n : N) : jsstring :=
  digits_fuel (S (N.to_nat (N.log2 n))) n [].

(** [m * 2^e / 10^d] as a fraction of two positive integers. *)
Definition scaled (m : positive) (e d : Z) : Z * Z :=
  (Zpos m * 2 ^ (Z.max e 0) * 10 ^ (Z.max (- d) 0),
   2 ^ (Z.max (- e) 0) * 10 ^ (Z.max d 0)).

Fixpoint find_exponent (fuel : nat) (m : positive) (e n : Z) : Z :=
  match fuel with
  | O => n
  | S f =>
      let '(a, b) := scaled m e n in
      if a <? b then n else find_exponent f m e (n + 1)
  end.

(** The [n] with [10^(n-1) <= m * 2^e < 10^n]. *)
Definition decimal_exponent (m : positive) (e : Z) : Z :=
  let d := Zpos (digits2_pos m) + e in
  find_exponent 4 m e ((d - 1) * 30103 / 100000 - 1).

(** The shortest digit string [s] of [k] digits such that [s * 10^(n-k)]
    reads back as [x]; of two such strings the one closer to [x]. *)
Fixpoint shortest_digits (fuel : nat) (x : number) (m : positive) (e n k : Z)
  : Z * Z * Z :=
  match fuel with
  | O => (0, k, n)
  | S f =>
      let '(a, b) := scaled m e (n - k) in
      let lo := a / b in
      let hi := lo + 1 in
      let reads_back s := SFeqb (Number_of_decimal false (Z.to_N s) (n - k)) x in
      let pick :=
        if reads_back lo then
          if reads_back hi then
            if 2 * a <? (2 * lo + 1) * b then Some lo
            else if (2 * lo + 1) * b <? 2 * a then Some hi
            else if Z.even lo then Some lo else Some hi
          else Some lo
        else if reads_back hi then Some hi else None in
      match pick with
      | Some s => if s =? 10 ^ k then (10 ^ (k - 1), k, n + 1) else (s, k, n)
      | None => shortest_digits f x m e n (k + 1)
      end
  end.

Definition zeros (n : Z) : jsstring := repeat 48%N (Z.to_nat n).

(** Number::toString of ECMA-262, radix 10. *)
Definition Number_toString (x : number) : jsstring :=
  match x with
  | S754_nan => js "NaN"
  | S754_zero _ => js "0"
  | S754_infinity s => (if s then js "-" else []) ++ js "Infinity"
  | S754_finite s m e =>
      let '(d, k, n) :=
        shortest_digits 17 (S754_finite false m e) m e (decimal_exponent m e) 1 in
      let ds := decimal_digits (Z.to_N d) in
      (if s then js "-" else []) ++
      (if (k <=? n) && (n <=? 21) then ds ++ zeros (n - k)
       else if (0 <? n) && (n <=? 21) then
         firstn (Z.to_nat n) ds ++ js "." ++ skipn (Z.to_nat n) ds
       else if (-6 <? n) && (n <=? 0) then js "0." ++ zeros (- n) ++ ds
       else
         let mantissa := match ds with
                         | d0 :: (_ :: _) as rest => d0 :: js "." ++ rest
                         | _ => ds
                         end in
         mantissa ++ js "e" ++ (if n - 1 <? 0 then js "-" else js "+")
                  ++ decimal_digits (Z.to_N (Z.abs (n - 1))))
  end.

(** ** Values

    The values a variable of the handler can hold: what [JSON.parse]
    builds, and [undefined] for a property that is not there.  An object
    keeps its own properties in creation order; keys are unique. *)

Inductive value :=
| VUndefined
| VNull
| VBoolean (b : bool)
| VNumber (n : number)
| VString (s : jsstring)
| VArray (elements : list value)
| VObject (properties : list (jsstring * value)).

Definition properties := list (jsstring * value).

Fixpoint own_get (ps : properties) (k : jsstring) : option value :=
  match ps with
  | [] => None
  | (k', v) :: ps' => if str_eqb k' k then Some v else own_get ps' k
  end.

(** Assignment to an own property: in place when the key exists, appended
    otherwise. *)
Fixpoint own_set (ps : properties) (k : jsstring) (x : value) : properties :=
  match ps with
  | [] => [(k, x)]
  | (k', v) :: ps' =>
      if str_eqb k' k then (k', x) :: ps' else (k', v) :: own_set ps' k x
  end.

Definition own_delete (ps : properties) (k : jsstring) : properties :=
  filter (fun kv => negb (str_eqb (fst kv) k)) ps.

Definition has_own (ps : properties) (k : jsstring) : bool :=
  match own_get ps k with Some _ => true | None => false end.

(** ToBoolean. *)
Definition truthy (v : value) : bool :=
  match v with
  | VUndefined | VNull => false
  | VBoolean b => b
  | VNumber (S754_zero _) | VNumber S754_nan => false
  | VNumber _ => true
  | VString s => match s with [] => false | _ :: _ => true end
  | VArray _ | VObject _ => true
  end.

(** ToString.  [None] stands for a thrown TypeError: an object parsed from
    JSON inherits [Object.prototype.toString] and prints as
    [[object Object]], unless it has an own property called [toString],
    which is never callable and leaves no way to convert it.  An array
    prints as its elements joined by commas, [null] elements as nothing. *)
Fixpoint ToString (v : value) : option jsstring :=
  match v with
  | VUndefined => Some (js "undefined")
  | VNull => Some (js "null")
  | VBoolean b => Some (if b then js "true" else js "false")
  | VNumber n => Some (Number_toString n)
  | VString s => Some s
  | VArray l =>
      (fix join (l : list value) : option jsstring :=
         match l with
         | [] => Some []
         | e :: l' =>
             let item := match e with
                         | VUndefined | VNull => Some []
                         | _ => ToString e
                         end in
             match item, l' with
             | None, _ => None
             | Some a, [] => Some a
             | Some a, _ :: _ =>
                 match join l' with
                 | Some b => Some (a ++ js "," ++ b)
                 | None => None
                 end
             end
         end) l
  | VObject ps =>
      if has_own ps (js "toString") then None else Some (js "[object Object]")
  end.

Definition ToPrimitive (v : value) : option value :=
  match v with
  | VArray _ | VObject _ => option_map VString (ToString v)
  | _ => Some v
  end.

(** ToNumber of a primitive that is not a string. *)
Definition ToNumber (v : value) : number :=
  match v with
  | VNull => S754_zero false
  | VBoolean b => if b then S754_finite false 4503599627370496 (-52)
                  else S754_zero false
  | VNumber n => n
  | _ => S754_nan
  end.

(** The [+] operator: concatenation as soon as one operand is a string
    after ToPrimitive, addition of Numbers otherwise. *)
Definition js_add (a b : value) : option value :=
  match ToPrimitive a, ToPrimitive b with
  | Some pa, Some pb =>
      match pa, pb with
      | VString _, _ | _, VString _ =>
          match ToString pa, ToString pb with
          | Some sa, Some sb => Some (VString (sa ++ sb))
          | _, _ => None
          end
      | _, _ => Some (VNumber (SFadd prec emax (ToNumber pa) (ToNumber pb)))
      end
  | _, _ => None
  end.

(** ** Property access

    The handler reads four names ([choices], [delta],
    [reasoning_content], [content]) and the index [0].  None of them is
    defined on a built-in prototype, so a read finds an own property or
    [undefined].  Reading from [null] or [undefined] throws ([None]). *)

Inductive key := Named (name : jsstring) | Index (i : nat).

Definition key_name (k : key) : jsstring :=
  match k with
  | Named n => n
  | Index i => decimal_digits (N.of_nat i)
  end.

Definition Get (v : value) (k : key) : option value :=
  match v with
  | VUndefined | VNull => None
  | VObject ps =>
      Some (match own_get ps (key_name k) with Some x => x | None => VUndefined end)
  | VArray l =>
      Some (match k with
            | Index i => nth i l VUndefined
            | Named _ => VUndefined
            end)
  | VString s =>
      Some (match k with
            | Index i => match nth_error s i with
                         | Some c => VString [c]
                         | None => VUndefined
                         end
            | Named _ => VUndefined
            end)
  | VBoolean _ | VNumber _ => Some VUndefined
  end.

(** [base?.[k]] and [base?.k]: [undefined] when the base is nullish. *)
Definition GetOptional (v : value) (k : key) : value :=
  match Get v k with Some x => x | None => VUndefined end.

(** [target.name = x] and [delete target.name] for a [target] that was
    parsed from JSON, in a script that is not in strict mode: an object
    gets or loses the own property; on a primitive the statement does
    nothing; on an array it adds or removes a named property, which no
    later read and no serialisation of the array sees. *)
Definition Put (target : value) (name : jsstring) (x : value) : value :=
  match target with
  | VObject ps => VObject (own_set ps name x)
  | _ => target
  end.

Definition Delete (target : value) (name : jsstring) : value :=
  match target with
  | VObject ps => VObject (own_delete ps name)
  | _ => target
  end.

(** ** [JSON.parse] *)

Local Open Scope N_scope.

Definition is_json_space (c : code_unit) : bool :=
  (c =? 32) || (c =? 9) || (c =? 10) || (c =? 13).

Fixpoint skip_space (s : jsstring) : jsstring :=
  match s with
  | c :: s' => if is_json_space c then skip_space s' else s
  | [] => []
  end.

Definition is_digit (c : code_unit) : bool := (48 <=? c) && (c <=? 57).

Definition hex_value (c : code_unit) : option N :=
  if is_digit c then Some (c - 48)
  else if (97 <=? c) && (c <=? 102) then Some (c - 87)
  else if (65 <=? c) && (c <=? 70) then Some (c - 55)
  else None.

Definition hex4 (a b c d : code_unit) : option code_unit :=
  match hex_value a, hex_value b, hex_value c, hex_value d with
  | Some x, Some y, Some z, Some w => Some (((x * 16 + y) * 16 + z) * 16 + w)
  | _, _, _, _ => None
  end.

(** The character after a backslash, other than [u]. *)
Definition simple_escape (e : code_unit) : option code_unit :=
  if (e =? 34) || (e =? 92) || (e =? 47) then Some e
  else if e =? 98 then Some 8
  else if e =? 102 then Some 12
  else if e =? 110 then Some 10
  else if e =? 114 then Some 13
  else if e =? 116 then Some 9
  else None.

(** The characters of a string literal after its opening quote, up to and
    including the closing one. *)
Fixpoint parse_string_chars (s acc : jsstring) : option (jsstring * jsstring) :=
  match s with
  | [] => None
  | c :: r =>
      if c =? 34 then Some (rev acc, r)
      else if c =? 92 then
        match r with
        | [] => None
        | e :: r1 =>
            if e =? 117 then
              match r1 with
              | h1 :: h2 :: h3 :: h4 :: r2 =>
                  match hex4 h1 h2 h3 h4 with
                  | Some u => parse_string_chars r2 (u :: acc)
                  | None => None
                  end
              | _ => None
              end
            else
              match simple_escape e with
              | Some u => parse_string_chars r1 (u :: acc)
              | None => None
              end
        end
      else if c <? 32 then None
      else parse_string_chars r (c :: acc)
  end.

Fixpoint take_digits (s : jsstring) : jsstring * jsstring :=
  match s with
  | c :: s' =>
      if is_digit c then let '(ds, r) := take_digits s' in (c :: ds, r)
      else ([], s)
  | [] => ([], [])
  end.

Definition digits_value (ds : jsstring) : N :=
  fold_left (fun a d => 10 * a + (d - 48)) ds 0.

(** A number literal: [-? int frac? exp?], no leading zero. *)
Definition parse_number (s : jsstring) : option (value * jsstring) :=
  let '(neg, s1) := match s with
                    | c :: r => if c =? 45 then (true, r) else (false, s)
                    | [] => (false, s)
                    end in
  let '(int, s2) := take_digits s1 in
  let leading_zero := match int with
                      | d :: _ :: _ => d =? 48
                      | _ => false
                      end in
  match int with
  | [] => None
  | _ :: _ =>
      if leading_zero then None
      else
        let frac :=
          match s2 with
          | c :: r => if c =? 46 then
                        match take_digits r with
                        | ([], _) => None
                        | (fs, r') => Some (fs, r')
                        end
                      else Some ([], s2)
          | [] => Some ([], s2)
          end in
        match frac with
        | None => None
        | Some (fs, s3) =>
            let exponent :=
              match s3 with
              | c :: r =>
                  if (c =? 101) || (c =? 69) then
                    let '(eneg, r1) :=
                      match r with
                      | g :: r' => if g =? 45 then (true, r')
                                   else if g =? 43 then (false, r')
                                   else (false, r)
                      | [] => (false, r)
                      end in
                    match take_digits r1 with
                    | ([], _) => None
                    | (es, r2) =>
                        let e := Z.of_N (digits_value es) in
                        Some ((if eneg then - e else e)%Z, r2)
                    end
                  else Some (0%Z, s3)
              | [] => Some (0%Z, s3)
              end in
            match exponent with
            | None => None
            | Some (e, s4) =>
                Some (VNumber (Number_of_decimal neg (digits_value (int ++ fs))
                                 (e - Z.of_nat (List.length fs))%Z), s4)
            end
        end
  end.

(** A JSON value and the text that follows it.  The recursion is on a
    step count; a run that consumes [k] code units needs no more than
    [2 * k] steps (lemma [parse_fuel] below). *)
Fixpoint parse_value (fuel : nat) (s : jsstring) {struct fuel}
  : option (value * jsstring) :=
  match fuel with
  | O => None
  | S f =>
      match skip_space s with
      | [] => None
      | c :: r =>
          if c =? 123 then
            match skip_space r with
            | [] => None
            | c' :: r' =>
                if c' =? 125 then Some (VObject [], r')
                else parse_members f (c' :: r') []
            end
          else if c =? 91 then
            match skip_space r with
            | [] => None
            | c' :: r' =>
                if c' =? 93 then Some (VArray [], r')
                else parse_elements f (c' :: r') []
            end
          else if c =? 34 then
            match parse_string_chars r [] with
            | Some (str, r') => Some (VString str, r')
            | None => None
            end
          else if startsWith (c :: r) (js "true") then
            Some (VBoolean true, skipn 4 (c :: r))
          else if startsWith (c :: r) (js "false") then
            Some (VBoolean false, skipn 5 (c :: r))
          else if startsWith (c :: r) (js "null") then
            Some (VNull, skipn 4 (c :: r))
          else parse_number (c :: r)
      end
  end

with parse_elements (fuel : nat) (s : jsstring) (acc : list value) {struct fuel}
  : option (value * jsstring) :=
  match fuel with
  | O => None
  | S f =>
      match parse_value f s with
      | None => None
      | Some (v, r) =>
          match skip_space r with
          | [] => None
          | c :: r' =>
              if c =? 44 then parse_elements f r' (v :: acc)
              else if c =? 93 then Some (VArray (rev (v :: acc)), r')
              else None
          end
      end
  end

with parse_members (fuel : nat) (s : jsstring) (acc : properties) {struct fuel}
  : option (value * jsstring) :=
  match fuel with
  | O => None
  | S f =>
      match skip_space s with
      | [] => None
      | q :: r0 =>
          if q =? 34 then
            match parse_string_chars r0 [] with
            | None => None
            | Some (k, r1) =>
                match skip_space r1 with
                | [] => None
                | c :: r2 =>
                    if c =? 58 then
                      match parse_value f r2 with
                      | None => None
                      | Some (v, r3) =>
                          match skip_space r3 with
                          | [] => None
                          | d :: r4 =>
                              if d =? 44 then parse_members f r4 (own_set acc k v)
                              else if d =? 125 then
                                Some (VObject (own_set acc k v), r4)
                              else None
                          end
                      end
                    else None
                end
            end
          else None
      end
  end.

(** [JSON.parse(text)]; [None] stands for the SyntaxError it throws.  The
    step count given is never the reason for a [None] (lemma
    [JSON_parse_fuel] below). *)
Definition JSON_parse (text : jsstring) : option value :=
  match parse_value (2 * List.length text + 2) text with
  | Some (v, r) => match skip_space r with
                   | [] => Some v
                   | _ :: _ => None
                   end
  | None => None
  end.

(** A parser uses its fuel well when a successful run consumes input and
    succeeds again, with the same result, on twice as much fuel as it
    consumed code units. *)
Definition fuel_ok {A} (parse : nat -> jsstring -> option (A * jsstring))
                   (f : nat) : Prop :=
  forall s v r,
    parse f s = Some (v, r) ->
    (List.length r < List.length s)%nat /\
    forall f', (2 * (List.length s - List.length r) <= f')%nat ->
               parse f' s = Some (v, r).

(** ** [JSON.stringify] *)

Definition hex_digit (n : N) : code_unit :=
  if n <? 10 then 48 + n else 87 + n.

(** [\uXXXX], in lower case. *)
Definition unicode_escape (c : code_unit) : jsstring :=
  [92; 117; hex_digit (c / 4096); hex_digit ((c / 256) mod 16);
   hex_digit ((c / 16) mod 16); hex_digit (c mod 16)].

Definition is_high_surrogate (c : code_unit) : bool :=
  (55296 <=? c) && (c <=? 56319).
Definition is_low_surrogate (c : code_unit) : bool :=
  (56320 <=? c) && (c <=? 57343).

(** The characters of a quoted string: the short escapes, [\u] escapes for
    the other control characters and for surrogates that are not paired,
    everything else as it is. *)
Fixpoint quote_chars (s : jsstring) : jsstring :=
  match s with
  | [] => []
  | c :: s' =>
      if c =? 8 then js "\b" ++ quote_chars s'
      else if c =? 9 then js "\t" ++ quote_chars s'
      else if c =? 10 then js "\n" ++ quote_chars s'
      else if c =? 12 then js "\f" ++ quote_chars s'
      else if c =? 13 then js "\r" ++ quote_chars s'
      else if c =? 34 then [92; 34] ++ quote_chars s'
      else if c =? 92 then [92; 92] ++ quote_chars s'
      else if c <? 32 then unicode_escape c ++ quote_chars s'
      else if is_high_surrogate c then
        match s' with
        | c' :: s'' =>
            if is_low_surrogate c' then c :: c' :: quote_chars s''
            else unicode_escape c ++ quote_chars s'
        | [] => unicode_escape c
        end
      else if is_low_surrogate c then unicode_escape c ++ quote_chars s'
      else c :: quote_chars s'
  end.

Definition QuoteJSONString (s : jsstring) : jsstring :=
  [34] ++ quote_chars s ++ [34].

(** An array index: the canonical decimal form of an integer below
    [2^32 - 1].  Such keys are enumerated first, in ascending order. *)
Definition array_index (k : jsstring) : option N :=
  match k with
  | [] => None
  | d :: rest =>
      if forallb is_digit k
         && negb ((d =? 48) && match rest with [] => false | _ => true end)
         && (digits_value k <? 4294967295)
      then Some (digits_value k) else None
  end.

Fixpoint insert_index {A} (i : N) (kv : jsstring * A)
                      (l : list (N * (jsstring * A)))
  : list (N * (jsstring * A)) :=
  match l with
  | [] => [(i, kv)]
  | (j, kv') :: l' =>
      if i <? j then (i, kv) :: l else (j, kv') :: insert_index i kv l'
  end.

(** [[OwnPropertyKeys]] order. *)
Definition enumeration_order {A} (ps : list (jsstring * A))
  : list (jsstring * A) :=
  let indexed :=
    fold_left (fun acc kv => match array_index (fst kv) with
                             | Some i => insert_index i kv acc
                             | None => acc
                             end) ps [] in
  map snd indexed
  ++ filter (fun kv => match array_index (fst kv) with
                       | Some _ => false
                       | None => true
                       end) ps.

Fixpoint join_with (sep : jsstring) (parts : list jsstring) : jsstring :=
  match parts with
  | [] => []
  | [x] => x
  | x :: rest => x ++ sep ++ join_with sep rest
  end.

(** SerializeJSONProperty; [None] when the value is [undefined]. *)
Fixpoint serialize (v : value) : option jsstring :=
  match v with
  | VUndefined => None
  | VNull => Some (js "null")
  | VBoolean b => Some (if b then js "true" else js "false")
  | VNumber n =>
      Some (match n with
            | S754_nan | S754_infinity _ => js "null"
            | _ => Number_toString n
            end)
  | VString s => Some (QuoteJSONString s)
  | VArray l =>
      Some (js "[" ++
            join_with (js ",")
              ((fix items (l : list value) : list jsstring :=
                  match l with
                  | [] => []
                  | e :: l' =>
                      match serialize e with
                      | Some t => t
                      | None => js "null"
                      end :: items l'
                  end) l)
            ++ js "]")
  | VObject ps =>
      let members :=
        (fix members (ps : properties) : list (jsstring * jsstring) :=
           match ps with
           | [] => []
           | (k, x) :: ps' =>
               match serialize x with
               | Some t => (k, t) :: members ps'
               | None => members ps'
               end
           end) ps in
      Some (js "{" ++
            join_with (js ",")
              (map (fun kt => QuoteJSONString (fst kt) ++ js ":" ++ snd kt)
                   (enumeration_order members))
            ++ js "}")
  end.

(** [JSON.stringify(v)] inside a template literal. *)
Definition JSON_stringify (v : value) : jsstring :=
  match serialize v with
  | Some t => t
  | None => js "undefined"
  end.

End JS.

(* ================================================================== *)
(** * The streaming handler                                            *)
(* ================================================================== *)

Module Transcoder.
Import JS.

(** ** String literals of the handler *)

Definition DATA_PREFIX : jsstring := js "data: ".
Definition DONE_TOKEN : jsstring := js "[DONE]".
Definition THINK_OPEN : jsstring := js "<think>" ++ [LF].
Definition THINK_CLOSE : jsstring := [LF] ++ js "</think>" ++ [LF; LF].
Definition DONE_EVENT : jsstring := js "data: [DONE]" ++ [LF; LF].

(** The literal of the [end] listener.  Its source text escapes the
    backslash, so the text sent holds a backslash and an [n]: the JSON
    escape of a line feed. *)
Definition AUTO_CLOSE_EVENT : jsstring :=
  jq "data: {'choices':[{'delta':{'content':'\n</think>'}}]}" ++ [LF; LF].

Definition choices := Named (js "choices").
Definition delta := Named (js "delta").
Definition reasoning_content : jsstring := js "reasoning_content".
Definition content : jsstring := js "content".

(** ** What the handler sends to [res]

    One constructor per call site.  [WFrame data marks] is the write of
    [data: ${JSON.stringify(data)}\n\n]; it keeps the object that is
    serialised, and as ghost information the marker literals that the
    combiner put into its [content]. *)

Inductive marker := Open | Close.

Inductive emission :=
| WFlush                                          (* res.flushHeaders() *)
| WDone                                           (* res.write('data: [DONE]\n\n') *)
| WFrame (data : value) (marks : list marker)     (* res.write(output) *)
| WRaw (line : jsstring)                          (* res.write(line + '\n\n') *)
| WAutoClose                                      (* res.write('data: {"choices":...}\n\n') *)
| WError (message : jsstring)                     (* res.write(`data: {"error": ...}\n\n`) *)
| WEnd.                                           (* res.end() *)

(** The string handed to [res.write]. *)
Definition text_of (e : emission) : option jsstring :=
  match e with
  | WDone => Some DONE_EVENT
  | WFrame data _ => Some (js "data: " ++ JSON_stringify data ++ [LF; LF])
  | WRaw line => Some (line ++ [LF; LF])
  | WAutoClose => Some AUTO_CLOSE_EVENT
  | WError message =>
      Some (jq "data: {'error': '" ++ message ++ jq "'}" ++ [LF; LF])
  | WFlush | WEnd => None
  end.

(** ** Per-request state: the three [let]s of the streaming branch *)

Record state := {
  buffer : jsstring;
  reasoningStarted : bool;
  hasStarted : bool
}.

Definition initial : state :=
  {| buffer := []; reasoningStarted := false; hasStarted := false |}.

(** ** The combiner (the [if (SHOW_REASONING)] branch up to the guard)

    Returns the value of [combinedContent] with the markers concatenated
    into it, or [None] when a concatenation threw, and the value of
    [reasoningStarted] at that point: an assignment made before a throw
    stays made. *)
Definition combine (reasoning content : value) (reasoningStarted : bool)
  : option (value * list marker) * bool :=
  let first :=
    if truthy reasoning && negb reasoningStarted then
      match js_add (VString THINK_OPEN) reasoning with
      | Some s => (Some (s, [Open]), true)
      | None => (None, reasoningStarted)
      end
    else if truthy reasoning then (Some (reasoning, []), reasoningStarted)
    else (Some (VString [], []), reasoningStarted) in
  match first with
  | (None, started) => (None, started)
  | (Some (combinedContent, marks), started) =>
      if truthy content && started then
        match js_add (VString THINK_CLOSE) content with
        | Some closing =>
            match js_add combinedContent closing with
            | Some s => (Some (s, marks ++ [Close]), false)
            | None => (None, started)
            end
        | None => (None, started)
        end
      else if truthy content then
        match js_add combinedContent content with
        | Some s => (Some (s, marks), started)
        | None => (None, started)
        end
      else (Some (combinedContent, marks), started)
  end.

(** [data.choices?.[0]?.delta]; [None] is the TypeError of reading
    [choices] from [null]. *)
Definition delta_of (data : value) : option value :=
  match Get data choices with
  | None => None
  | Some cs => Some (GetOptional (GetOptional cs (Index 0)) delta)
  end.

(** The objects of a parsed event are mutated in place.  Functionally:
    the changed child is written back into its parent, at the place it
    was read from. *)
Definition store (parent : value) (k : key) (child : value) : value :=
  match parent, k with
  | VObject ps, _ => VObject (own_set ps (key_name k) child)
  | VArray (_ :: rest), Index O => VArray (child :: rest)
  | _, _ => parent
  end.

Definition with_delta (data : value) (d : value) : value :=
  let cs := GetOptional data choices in
  let choice := GetOptional cs (Index 0) in
  store data choices (store cs (Index 0) (store choice delta d)).

(** The [if (data.choices?.[0]?.delta) { ... }] statement: the event as it
    will be serialised, with the markers put into it.  A text that the
    guard [if (combinedContent)] finds empty holds no marker (lemma
    [combine_marks_truthy] below). *)
Definition rewrite_event (SHOW_REASONING : bool) (data : value)
                         (reasoningStarted : bool)
  : option (value * list marker) * bool :=
  match delta_of data with
  | None => (None, reasoningStarted)
  | Some d =>
      if truthy d then
        let reasoning := GetOptional d (Named reasoning_content) in
        let content_ := GetOptional d (Named content) in
        if SHOW_REASONING then
          match combine reasoning content_ reasoningStarted with
          | (None, started) => (None, started)
          | (Some (combinedContent, marks), started) =>
              if truthy combinedContent then
                let d1 := Put d content combinedContent in
                let d2 := Delete d1 reasoning_content in
                (Some (with_delta data d2, marks), started)
              else (Some (data, []), started)
          end
        else
          let d1 := if truthy content_ then Put d content content_
                    else Put d content (VString []) in
          let d2 := Delete d1 reasoning_content in
          (Some (with_delta data d2, []), reasoningStarted)
      else (Some (data, []), reasoningStarted)
  end.

(** The inner [try] block; [None] when it threw. *)
Definition try_block (SHOW_REASONING : bool) (line : jsstring)
                     (reasoningStarted : bool)
  : option emission * bool :=
  match JSON_parse (slice line 6) with
  | None => (None, reasoningStarted)
  | Some data =>
      match rewrite_event SHOW_REASONING data reasoningStarted with
      | (Some (data', marks), started) => (Some (WFrame data' marks), started)
      | (None, started) => (None, started)
      end
  end.

(** The callback of [lines.forEach]. *)
Definition process_line (SHOW_REASONING : bool) (line : jsstring)
                        (reasoningStarted : bool)
  : list emission * bool :=
  if negb (truthy (VString (trim line))) then ([], reasoningStarted)
  else if startsWith line DATA_PREFIX then
    if includes line DONE_TOKEN then ([WDone], reasoningStarted)
    else
      match try_block SHOW_REASONING line reasoningStarted with
      | (Some e, started) => ([e], started)
      | (None, started) => ([WRaw line], started)
      end
  else ([], reasoningStarted).

Fixpoint forEach (SHOW_REASONING : bool) (lines : list jsstring)
                 (reasoningStarted : bool)
  : list emission * bool :=
  match lines with
  | [] => ([], reasoningStarted)
  | line :: rest =>
      let '(out, started) := process_line SHOW_REASONING line reasoningStarted in
      let '(out', started') := forEach SHOW_REASONING rest started in
      (out ++ out', started')
  end.

(** The line framer: [buffer += chunk.toString()], [split], [pop]. *)
Definition frame (buffer : jsstring) (chunk : list byte)
  : list jsstring * jsstring :=
  let buffer := buffer ++ Buffer_toString chunk in
  let lines := split_nl buffer in
  let popped := last lines [] in
  (removelast lines, if truthy (VString popped) then popped else []).

(** The framer over a sequence of chunks: every line it yields, and the
    remainder it retains. *)
Fixpoint feed (buffer : jsstring) (chunks : list (list byte))
  : list jsstring * jsstring :=
  match chunks with
  | [] => ([], buffer)
  | chunk :: rest =>
      let '(lines, buffer') := frame buffer chunk in
      let '(lines', buffer'') := feed buffer' rest in
      (lines ++ lines', buffer'')
  end.

(** The [data] listener.  Nothing outside the inner [try] throws, so the
    outer [catch] is never entered. *)
Definition on_data (SHOW_REASONING : bool) (chunk : list byte) (st : state)
  : list emission * state :=
  let flush := if hasStarted st then [] else [WFlush] in
  let '(lines, buffer') := frame (buffer st) chunk in
  let '(out, started) := forEach SHOW_REASONING lines (reasoningStarted st) in
  (flush ++ out,
   {| buffer := buffer'; reasoningStarted := started; hasStarted := true |}).

(** The [end] listener. *)
Definition on_end (st : state) : list emission :=
  (if reasoningStarted st then [WAutoClose] else []) ++ [WDone; WEnd].

(** The [error] listener; [message] is [err.message]. *)
Definition on_error (message : jsstring) (st : state) : list emission :=
  [WError message; WDone; WEnd].

(** ** A request: the events of the backend stream, in delivery order *)

Inductive signal :=
| Data (chunk : list byte)
| EndOfStream
| StreamError (message : jsstring).

Definition dispatch (SHOW_REASONING : bool) (sig : signal) (st : state)
  : list emission * state :=
  match sig with
  | Data chunk => on_data SHOW_REASONING chunk st
  | EndOfStream => (on_end st, st)
  | StreamError message => (on_error message st, st)
  end.

Fixpoint run (SHOW_REASONING : bool) (sigs : list signal) (st : state)
  : list emission * state :=
  match sigs with
  | [] => ([], st)
  | sig :: rest =>
      let '(out, st') := dispatch SHOW_REASONING sig st in
      let '(out', st'') := run SHOW_REASONING rest st' in
      (out ++ out', st'')
  end.

(** The constant of server.js. *)
Definition SHOW_REASONING : bool := true.

(** ASCII text as the bytes of a chunk. *)
Definition bytes (s : jsstring) : list byte :=
  map (fun c => match Byte.of_N c with Some b => b | None => x00 end) s.

End Transcoder.

(* ================================================================== *)
(** * The vocabulary of the specification                              *)
(* ================================================================== *)

Module Spec.
Import JS.
Import Transcoder.

(** ** The data model *)

Definition field (d : value) (name : jsstring) : value :=
  GetOptional d (Named name).

(** The two fields of a delta are optional text fragments: a field is
    text, or is missing or [null]. *)
Definition text_or_absent (v : value) : bool :=
  match v with
  | VUndefined | VNull | VString _ => true
  | _ => false
  end.

(** The text a field carries, if it carries any. *)
Definition present (v : value) : option jsstring :=
  match v with
  | VString (c :: s) => Some (c :: s)
  | _ => None
  end.

(** A field that is missing or is the empty string. *)
Definition empty_or_absent (v : value) : bool :=
  match v with
  | VUndefined | VString [] => true
  | _ => false
  end.


(** The lines that get as far as the inner [try]. *)
Definition reaches_try (line : jsstring) : bool :=
  truthy (VString (trim line)) && startsWith line DATA_PREFIX
  && negb (includes line DONE_TOKEN).


(** The [content] of the delta of an event. *)
Definition content_of (data : value) : option value :=
  option_map (fun d => field d content) (delta_of data).

(** Does the delta of an event have a [reasoning_content] field? *)
Definition has_reasoning_content (data : value) : bool :=
  match delta_of data with
  | Some (VObject ps) => has_own ps reasoning_content
  | _ => false
  end.

(** An event with the given delta and nothing else. *)
Definition event_of_delta (d : value) : value :=
  VObject [(js "choices", VArray [VObject [(js "delta", d)]])].

(** ** The combiner, in the words of the specification *)

(** The truth table, row by row: the text to emit and the next value of
    the flag. *)
Definition truth_table (reasoning content : option jsstring) (open : bool)
  : jsstring * bool :=
  match reasoning, content, open with
  | Some r, None, false => (THINK_OPEN ++ r, true)
  | Some r, None, true => (r, true)
  | Some r, Some c, false => (THINK_OPEN ++ r ++ THINK_CLOSE ++ c, false)
  | Some r, Some c, true => (r ++ THINK_CLOSE ++ c, false)
  | None, Some c, true => (THINK_CLOSE ++ c, false)
  | None, Some c, false => (c, false)
  | None, None, o => ([], o)
  end.

(** The markers of each row. *)
Definition table_marks (reasoning content : option jsstring) (open : bool)
  : list marker :=
  match reasoning, content, open with
  | Some _, None, false => [Open]
  | Some _, Some _, false => [Open; Close]
  | _, Some _, true => [Close]
  | _, _, _ => []
  end.

(** ** Markers of a trace *)

(** The markers a trace carries, in the order they are sent. *)
Definition markers_of (e : emission) : list marker :=
  match e with
  | WFrame _ marks => marks
  | WAutoClose => [Close]
  | _ => []
  end.

Definition markers (trace : list emission) : list marker :=
  flat_map markers_of trace.

Definition is_open (m : marker) : bool :=
  match m with Open => true | Close => false end.




(** ** Requests and their traces *)

(** A request: chunks, then the end of the stream or an error. *)
Definition request (chunks : list (list byte)) (final : signal) : list signal :=
  map Data chunks ++ [final].

Definition is_final (sig : signal) : bool :=
  match sig with Data _ => false | _ => true end.

Definition is_write (e : emission) : bool :=
  match e with
  | WFlush | WEnd => false
  | _ => true
  end.

(** Nothing is written after the first termination sentinel. *)
Fixpoint quiet_after_done (trace : list emission) : bool :=
  match trace with
  | [] => true
  | WDone :: rest => forallb (fun e => negb (is_write e)) rest
  | _ :: rest => quiet_after_done rest
  end.

(** What the [data] listener can send. *)
Definition from_data_listener (e : emission) : bool :=
  match e with
  | WFlush | WDone | WFrame _ _ | WRaw _ => true
  | WAutoClose | WError _ | WEnd => false
  end.

(** ** Two statements that the handler does not meet as they stand *)

(** Every re-emitted event has lost [reasoning_content]. *)
Definition always_stripped : Prop :=
  forall mode data flag data' marks flag',
    rewrite_event mode data flag = (Some (data', marks), flag') ->
    has_reasoning_content data' = false.

(** Nothing is written once the sentinel has been. *)
Definition nothing_after_sentinel : Prop :=
  forall mode chunks final,
    is_final final = true ->
    quiet_after_done (fst (run mode (request chunks final) initial)) = true.

(** ** Concrete inputs *)

(** The three inbound frames of the scenario of the specification; the
    first as an event, and its delta. *)
Definition scenario_reasoning : jsstring :=
  jq "data: {'choices':[{'delta':{'reasoning_content':'ab'}}]}".
Definition scenario_content : jsstring :=
  jq "data: {'choices':[{'delta':{'content':'X'}}]}".
Definition scenario_done : jsstring := js "data: [DONE]".

Definition scenario_delta : value :=
  VObject [(reasoning_content, VString (js "ab"))].
Definition scenario_event : value := event_of_delta scenario_delta.

(** A line whose delta has an empty [reasoning_content] and nothing else,
    and the event it parses to. *)
Definition empty_reasoning_line : jsstring :=
  jq "data: {'choices':[{'delta':{'reasoning_content':''}}]}".
Definition empty_reasoning_event : value :=
  event_of_delta (VObject [(reasoning_content, VString [])]).

(** A content frame whose text is the sentinel token. *)
Definition sentinel_in_content : jsstring :=
  jq "data: {'choices':[{'delta':{'content':'[DONE]'}}]}".

(** The malformed line of the pass-through property. *)
Definition malformed_line : jsstring := jq "data: {not json".

(** One content frame whose text is U+00E9, encoded in UTF-8 as the bytes
    C3 A9, cut between the two. *)
Definition accent_head : list byte :=
  bytes (jq "data: {'choices':[{'delta':{'content':'") ++ [xc3].
Definition accent_tail : list byte :=
  [xa9] ++ bytes (jq "'}}]}") ++ [x0a].

End Spec.

(* ================================================================== *)
(** * The rest of the chat-completions handler                         *)
(* ================================================================== *)

Module Handler.
Import JS.
Import Transcoder.

(** [a || b]. *)
Definition js_or (a b : value) : value := if truthy a then a else b.

(** An integer literal of the source, or an integer a built-in returns. *)
Definition num (n : N) : value := VNumber (Number_of_decimal false n 0).

(** ** Model names *)

(** [MODEL_MAPPING] of server.js. *)
Definition MODEL_MAPPING : properties :=
  map (fun kv => (js (fst kv), VString (js (snd kv))))
    [("gpt-3.5-turbo", "nvidia/llama-3.1-nemotron-ultra-253b-v1");
     ("gpt-4", "qwen/qwen3-coder-480b-a35b-instruct");
     ("gpt-4-turbo", "moonshotai/kimi-k2-instruct-0905");
     ("gpt-4o", "deepseek-ai/deepseek-v3.1");
     ("deepseek-r1", "deepseek-ai/deepseek-r1-0528");
     ("deepseek-v3.2", "deepseek-ai/deepseek-v3.2");
     ("claude-3-opus", "openai/gpt-oss-120b");
     ("claude-3-sonnet", "openai/gpt-oss-20b");
     ("gemini-pro", "qwen/qwen3-next-80b-a3b-thinking")]%string.

(** The property names every object inherits from [Object.prototype];
    each of them reads as a truthy built-in. *)
Definition OBJECT_PROTOTYPE : list jsstring :=
  map js ["constructor"; "__defineGetter__"; "__defineSetter__";
          "hasOwnProperty"; "__lookupGetter__"; "__lookupSetter__";
          "isPrototypeOf"; "propertyIsEnumerable"; "toString"; "valueOf";
          "__proto__"; "toLocaleString"]%string.

(** What the model selection ends with: a value for [nimModel], a built-in
    of [Object.prototype] standing in [nimModel], or a TypeError. *)
Inductive resolution :=
| Resolved (nimModel : value)
| Native (name : jsstring)
| Throws.

Definition LLAMA_405B : jsstring := js "meta/llama-3.1-405b-instruct".
Definition LLAMA_70B : jsstring := js "meta/llama-3.1-70b-instruct".
Definition LLAMA_8B : jsstring := js "meta/llama-3.1-8b-instruct".

(** The three tiers of the fallback, on the lower-cased name. *)
Definition fallback (modelLower : jsstring) : jsstring :=
  if includes modelLower (js "gpt-4") || includes modelLower (js "claude-opus")
     || includes modelLower (js "405b") then LLAMA_405B
  else if includes modelLower (js "claude") || includes modelLower (js "gemini")
          || includes modelLower (js "70b") then LLAMA_70B
  else LLAMA_8B.

(** The probe request: its HTTP status, or [None] when the request failed.
    A status of 500 or more rejects and is swallowed by the [catch]; the
    [then] callback takes the name only on a 2xx status. *)
Definition probe_accepts (status : option Z) : bool :=
  match status with
  | Some s => ((s <? 500) && (200 <=? s) && (s <? 300))%Z
  | None => false
  end.

Section Selection.

(** [String.prototype.toLowerCase], taken as given. *)
Variable toLowerCase : jsstring -> jsstring.

(** [let nimModel = MODEL_MAPPING[model]; if (!nimModel) { ... }].  The
    key of the lookup is [model] converted to a string; a name that the
    table does not have is looked up on [Object.prototype]. *)
Definition select_model (probe : option Z) (model : value) : resolution :=
  match ToString model with
  | None => Throws
  | Some key =>
      match own_get MODEL_MAPPING key, existsb (str_eqb key) OBJECT_PROTOTYPE with
      | None, true => Native key
      | found, _ =>
          let nimModel := match found with Some v => v | None => VUndefined end in
          if truthy nimModel then Resolved nimModel
          else
            let nimModel := if probe_accepts probe then model else VUndefined in
            if truthy nimModel then Resolved nimModel
            else
              match model with
              | VString s => Resolved (VString (fallback (toLowerCase s)))
              | _ => Throws
              end
      end
  end.

End Selection.

(** [GET /v1/models]: the body of the response; [now i] is what the
    [i]-th call of [Date.now()] returns. *)
Definition list_models (now : nat -> N) : value :=
  VObject
    [(js "object", VString (js "list"));
     (js "data",
      VArray (map (fun ik =>
                     VObject [(js "id", VString (snd ik));
                              (js "object", VString (js "model"));
                              (js "created", num (now (fst ik)));
                              (js "owned_by", VString (js "nvidia-nim-proxy"))])
                  (List.combine (seq 0 (List.length MODEL_MAPPING))
                                (map fst MODEL_MAPPING))))].

(** ** The request sent to the backend *)

(** [const { model, messages, temperature, max_tokens, stream } = req.body]. *)
Record body_fields := {
  model : value;
  messages : value;
  temperature : value;
  max_tokens : value;
  stream : value
}.

(** [None] is the TypeError of destructuring [null] or [undefined]. *)
Definition destructure (body : value) : option body_fields :=
  match body with
  | VUndefined | VNull => None
  | _ =>
      Some {| model := GetOptional body (Named (js "model"));
              messages := GetOptional body (Named (js "messages"));
              temperature := GetOptional body (Named (js "temperature"));
              max_tokens := GetOptional body (Named (js "max_tokens"));
              stream := GetOptional body (Named (js "stream")) |}
  end.

Definition THINKING : properties :=
  [(js "chat_template_kwargs", VObject [(js "thinking", VBoolean true)])].

(** [nimRequest] as server.js builds it. *)
Definition nimRequest (ENABLE_THINKING_MODE : bool) (nimModel : value)
                      (b : body_fields) : value :=
  VObject
    ([(js "model", nimModel);
      (js "messages", messages b);
      (js "temperature", js_or (temperature b) (num 1));
      (js "top_p", VNumber (Number_of_decimal false 95 (-2)));
      (js "max_tokens", js_or (max_tokens b) (num 8192));
      (js "stream", js_or (stream b) (VBoolean false))]
     ++ (if ENABLE_THINKING_MODE then THINKING else [])).

(** [v.includes(needle)] for a [v] that is [nimModel]: the method of
    strings, the method of arrays, or a TypeError. *)
Definition includes_method (v : value) (needle : jsstring) : option bool :=
  match v with
  | VString s => Some (includes s needle)
  | VArray l =>
      Some (existsb (fun e => match e with
                              | VString t => str_eqb t needle
                              | _ => false
                              end) l)
  | _ => None
  end.

(** [nimRequest] as the second version of the file builds it: a
    temperature is kept unless it is [undefined], and the thinking
    parameter goes to the models whose name says so. *)
Definition nimRequest_v2 (ENABLE_THINKING_MODE : bool) (nimModel : value)
                         (b : body_fields) : option value :=
  let base :=
    [(js "model", nimModel);
     (js "messages", messages b);
     (js "temperature", match temperature b with
                        | VUndefined => num 1
                        | t => t
                        end);
     (js "top_p", VNumber (Number_of_decimal false 95 (-2)));
     (js "max_tokens", js_or (max_tokens b) (num 8192));
     (js "stream", js_or (stream b) (VBoolean false))] in
  if ENABLE_THINKING_MODE then
    match includes_method nimModel (js "deepseek") with
    | None => None
    | Some true => Some (VObject (base ++ THINKING))
    | Some false =>
        match includes_method nimModel (js "thinking") with
        | None => None
        | Some true => Some (VObject (base ++ THINKING))
        | Some false => Some (VObject base)
        end
    end
  else Some (VObject base).

(** ** The response of the backend, when it is not streamed *)

(** The callback of [response.data.choices.map]; [None] when it throws. *)
Definition transform_choice (SHOW_REASONING : bool) (choice : value)
  : option value :=
  match Get choice (Named (js "message")) with
  | None => None
  | Some message =>
      let fullContent :=
        js_or (GetOptional message (Named content)) (VString []) in
      let reasoning := GetOptional message (Named reasoning_content) in
      let fullContent :=
        if SHOW_REASONING && truthy reasoning then
          match js_add (VString THINK_OPEN) reasoning with
          | None => None
          | Some a =>
              match js_add a (VString THINK_CLOSE) with
              | None => None
              | Some b => js_add b fullContent
              end
          end
        else Some fullContent in
      match fullContent, Get message (Named (js "role")) with
      | Some text, Some role =>
          Some (VObject
                  [(js "index", GetOptional choice (Named (js "index")));
                   (js "message", VObject [(js "role", role); (content, text)]);
                   (js "finish_reason",
                    GetOptional choice (Named (js "finish_reason")))])
      | _, _ => None
      end
  end.

Fixpoint map_choices (SHOW_REASONING : bool) (l : list value)
  : option (list value) :=
  match l with
  | [] => Some []
  | choice :: rest =>
      match transform_choice SHOW_REASONING choice with
      | None => None
      | Some c =>
          match map_choices SHOW_REASONING rest with
          | None => None
          | Some cs => Some (c :: cs)
          end
      end
  end.

Definition NO_USAGE : value :=
  VObject [(js "prompt_tokens", num 0); (js "completion_tokens", num 0);
           (js "total_tokens", num 0)].

(** [openaiResponse]; [now1] and [now2] are what the two calls of
    [Date.now()] return (integers, so that [Math.floor(now2 / 1000)] is the
    integer quotient), [model] is the name the client asked for, [data] is
    [response.data].  [None] when building it throws. *)
Definition openaiResponse (SHOW_REASONING : bool) (now1 now2 : N)
                          (model data : value) : option value :=
  match Get data choices with
  | Some (VArray l) =>
      match map_choices SHOW_REASONING l with
      | None => None
      | Some cs =>
          Some (VObject
                  [(js "id", VString (js "chatcmpl-" ++ Number_toString
                                        (Number_of_decimal false now1 0)));
                   (js "object", VString (js "chat.completion"));
                   (js "created", num (now2 / 1000));
                   (js "model", model);
                   (js "choices", VArray cs);
                   (js "usage", js_or (GetOptional data (Named (js "usage")))
                                      NO_USAGE)])
      end
  | _ => None
  end.

(** ** The [catch] of the handler *)

(** [error.response?.name]. *)
Definition of_response (error : value) (name : jsstring) : value :=
  GetOptional (GetOptional error (Named (js "response"))) (Named name).

(** The status given to [res.status] and the body given to [json], for a
    thrown [error] that is not [null] or [undefined]. *)
Definition error_response (error : value) : value * value :=
  let status := js_or (of_response error (js "status")) (num 500) in
  let detail :=
    GetOptional (of_response error (js "data")) (Named (js "detail")) in
  let message :=
    js_or (js_or detail (GetOptional error (Named (js "message"))))
          (VString (js "Internal server error")) in
  (status,
   VObject
     [(js "error",
       VObject [(js "message", message);
                (js "type", VString (js "invalid_request_error"));
                (js "code", js_or (of_response error (js "status")) (num 500));
                (js "nvidia_error", of_response error (js "data"))])]).

End Handler.

(* ================================================================== *)
(** * Vocabulary for the properties beyond the claims                  *)
(* ================================================================== *)

Module Beyond.
Import JS.
Import Transcoder.
Import Spec.
Import Handler.

(** ** Chunks and lines *)

(** The state of the UTF-8 decoder after some bytes: [utf8_run] without
    its output. *)
Fixpoint utf8_end (st : utf8_state) (bs : list byte) : utf8_state :=
  let '(cp, needed, lower, upper) := st in
  match bs with
  | [] => st
  | b :: rest =>
      let x := Byte.to_N b in
      if (needed =? 0)%N then utf8_end (snd (utf8_lead x)) rest
      else if ((lower <=? x) && (x <=? upper))%N then
        if (needed =? 1)%N then utf8_end utf8_init rest
        else utf8_end (N.lor (N.shiftl cp 6) (N.land x 63),
                       (needed - 1)%N, 128%N, 191%N) rest
      else utf8_end (snd (utf8_lead x)) rest
  end.

(** A chunk that ends where a character ends. *)
Definition complete (chunk : list byte) : bool :=
  let '(_, needed, _, _) := utf8_end utf8_init chunk in (needed =? 0)%N.

Definition is_ascii (b : byte) : bool := (Byte.to_N b <? 128)%N.

Definition no_lf (s : jsstring) : bool :=
  forallb (fun c => negb (c =? LF)%N) s.

(** The carriage return. *)
Definition CR : code_unit := 13%N.

Definition nonempty (s : jsstring) : bool :=
  match s with [] => false | _ => true end.

(** A character that a JSON string holds as it is, and a text of such
    characters. *)
Definition plain_char (c : code_unit) : bool :=
  negb (c =? 34)%N && negb (c =? 92)%N && negb (c <? 32)%N.
Definition plain (s : jsstring) : bool := forallb plain_char s.

(** A line the [data] listener answers: not blank, and a [data: ] line. *)
Definition is_data_line (line : jsstring) : bool :=
  truthy (VString (trim line)) && startsWith line DATA_PREFIX.

(** The lines of a text that are complete, and what follows the last line
    feed. *)
Definition complete_lines (text : jsstring) : list jsstring :=
  removelast (split_nl text).
Definition remainder (text : jsstring) : jsstring :=
  last (split_nl text) [].

(** The decoded text of a sequence of chunks. *)
Definition decoded (chunks : list (list byte)) : jsstring :=
  List.concat (map Buffer_toString chunks).

(** A write that is one event: some text without a line feed, then two
    line feeds. *)
Definition one_event (e : emission) : Prop :=
  exists payload, text_of e = Some (payload ++ [LF; LF]) /\ no_lf payload = true.

(** ** Streamed and not streamed *)

Definition reasoning_event (r : jsstring) : value :=
  event_of_delta (VObject [(reasoning_content, VString r)]).
Definition content_event (c : jsstring) : value :=
  event_of_delta (VObject [(content, VString c)]).

Definition text_of_value (v : option value) : jsstring :=
  match v with
  | Some (VString t) => t
  | _ => []
  end.

(** The text a client assembles from the frames that the events of a
    stream are rewritten to, in display mode, and the flag at the end. *)
Fixpoint streamed_text (events : list value) (flag : bool) : jsstring * bool :=
  match events with
  | [] => ([], flag)
  | data :: rest =>
      match rewrite_event true data flag with
      | (Some (data', _), flag') =>
          let '(t, flag'') := streamed_text rest flag' in
          (text_of_value (content_of data') ++ t, flag'')
      | (None, flag') => streamed_text rest flag'
      end
  end.

(** The [content] of the frame that the [end] listener writes. *)
Definition AUTO_CLOSE_TEXT : jsstring := [LF] ++ js "</think>".

(** The [content] of the message of a transformed choice. *)
Definition message_content (choice : value) : option value :=
  match Get choice (Named (js "message")) with
  | Some m => Some (field m content)
  | None => None
  end.

(** ** Choices *)

Definition nullish (v : value) : bool :=
  match v with
  | VUndefined | VNull => true
  | _ => false
  end.

(** A choice that has a message. *)
Definition has_message (choice : value) : bool :=
  match Get choice (Named (js "message")) with
  | Some m => negb (nullish m)
  | None => false
  end.

(** A choice whose message, if it has one, keeps [content] and
    [reasoning_content] to text. *)
Definition text_message (choice : value) : bool :=
  match Get choice (Named (js "message")) with
  | Some m => text_or_absent (field m content)
              && text_or_absent (field m reasoning_content)
  | None => true
  end.

(** The keys of an object, in creation order. *)
Definition keys (v : value) : list jsstring :=
  match v with
  | VObject ps => map fst ps
  | _ => []
  end.

End Beyond.

Import JS.
Import Transcoder.
Import Spec.

(* ================================================================== *)
(** * The runtime model on known values                                *)
(* ================================================================== *)

Example Number_toString_values :
  map (fun me => Number_toString (Number_of_decimal false (fst me) (snd me)))
      [(1%N, -1); (1%N, 21); (1%N, -7); (123456%N, -3);
       (9007199254740993%N, 0); (5%N, -324); (17976931348623157%N, 292);
       (1%N, 400)]%Z
  = map js ["0.1"; "1e+21"; "1e-7"; "123.456"; "9007199254740992";
            "5e-324"; "1.7976931348623157e+308"; "Infinity"]%string.
Proof. vm_compute. reflexivity. Qed.

Example Buffer_toString_values :
  Buffer_toString [xc3; xa9] = [233%N] /\
  Buffer_toString [xc3] = [REPLACEMENT] /\
  Buffer_toString [xa9] = [REPLACEMENT] /\
  Buffer_toString [xf0; x9f; x98; x80] = [55357%N; 56832%N] /\
  Buffer_toString [xe4; xbd; xa0; x41] = [20320%N; 65%N].
Proof. repeat split; reflexivity. Qed.

Example JSON_parse_values :
  JSON_parse (jq "{'a':[1,'xA\n',null,true],'a':{}}")
    = Some (VObject [(js "a", VObject [])]) /\
  JSON_parse (jq " [ -0 , 1.5e1 ] ")
    = Some (VArray [VNumber (S754_zero true);
                    VNumber (Number_of_decimal false 15 0)]) /\
  map JSON_parse [jq "{not json"; jq "[1,]"; jq "01"; jq "1."; jq "'a";
                  jq "{'a':1,}"; jq "nul"; []; jq "{} x"]
    = repeat None 9.
Proof. repeat split; vm_compute; reflexivity. Qed.

Example JSON_stringify_values :
  option_map JSON_stringify
    (JSON_parse (jq "{'b':[1.0,2.5e3,'x\n\u0001\ud800'],'10':null,'2':{}}"))
  = Some (jq "{'2':{},'10':null,'b':[1,2500,'x\n\u0001\ud800']}").
Proof. vm_compute. reflexivity. Qed.

Example js_add_values :
  option_map (js_add (VString (js "x"))) (JSON_parse (jq "[1,[2,null,'a'],{},true]"))
    = Some (Some (VString (js "x1,2,,a,[object Object],true"))) /\
  option_map (js_add (VString (js "x"))) (JSON_parse (jq "{'toString':1}"))
    = Some None /\
  js_add (VNumber (Number_of_decimal false 15 (-1))) (VBoolean true)
    = Some (VNumber (Number_of_decimal false 25 (-1))).
Proof. repeat split; vm_compute; reflexivity. Qed.

(* ================================================================== *)
(** * [JSON.parse]: the fuel is enough                                 *)
(* ================================================================== *)

Lemma skip_space_length s : List.length (skip_space s) <= List.length s.
Proof.
  induction s as [|c s IH]; simpl; [lia|].
  destruct (is_json_space c); simpl; lia.
Qed.

Lemma parse_string_chars_length n :
  forall s acc str r,
    List.length s <= n ->
    parse_string_chars s acc = Some (str, r) ->
    List.length r < List.length s.
Proof.
  induction n as [|n IH]; intros s acc str r Hn H.
  - destruct s; [discriminate|simpl in Hn; lia].
  - destruct s as [|c s]; [discriminate|].
    cbn [parse_string_chars] in H. simpl in Hn.
    destruct (N.eqb c 34).
    + injection H as _ <-. simpl; lia.
    + destruct (N.eqb c 92).
      * destruct s as [|e s1]; [discriminate|].
        destruct (N.eqb e 117).
        -- destruct s1 as [|h1 [|h2 [|h3 [|h4 s2]]]]; try discriminate.
           destruct (hex4 h1 h2 h3 h4); [|discriminate].
           apply IH in H; simpl in *; lia.
        -- destruct (simple_escape e); [|discriminate].
           apply IH in H; simpl in *; lia.
      * destruct (N.ltb c 32); [discriminate|].
        apply IH in H; simpl in *; lia.
Qed.

Lemma take_digits_length s :
  List.length (fst (take_digits s)) + List.length (snd (take_digits s))
  = List.length s.
Proof.
  induction s as [|c s IH]; [reflexivity|].
  cbn [take_digits]. destruct (is_digit c); [|reflexivity].
  destruct (take_digits s) as [ds r]. simpl in *. lia.
Qed.

Lemma parse_number_length s v r :
  parse_number s = Some (v, r) -> List.length r < List.length s.
Proof.
  unfold parse_number.
  set (p := match s with
            | c :: r0 => if N.eqb c 45 then (true, r0) else (false, s)
            | [] => (false, s)
            end).
  assert (Hp : List.length (snd p) <= List.length s).
  { subst p. destruct s as [|c s']; [simpl; lia|].
    destruct (N.eqb c 45); simpl; lia. }
  destruct p as [neg s1]. cbn [snd] in Hp.
  pose proof (take_digits_length s1) as H1.
  destruct (take_digits s1) as [int s2]. cbn [fst snd] in H1.
  destruct int as [|d int]; [discriminate|].
  match goal with |- context [if ?b then None else _] => destruct b end;
    [discriminate|].
  assert (H2 : List.length s2 < List.length s) by (simpl in H1; lia).
  clear H1 Hp.
  destruct (match s2 with [] => _ | _ => _ end) as [[fs s3]|] eqn:Ef;
    [|discriminate].
  assert (Hfrac : List.length s3 <= List.length s2).
  { destruct s2 as [|c r0]; [injection Ef as _ <-; lia|].
    destruct (N.eqb c 46); [|injection Ef as _ <-; lia].
    pose proof (take_digits_length r0) as H1.
    destruct (take_digits r0) as [[|f fs'] r']; [discriminate|].
    injection Ef as _ <-. simpl in *. lia. }
  clear Ef.
  intros H.
  match type of H with
  | match ?e with _ => _ end = _ => destruct e as [[e' s4]|] eqn:Ee; [|discriminate]
  end.
  injection H as _ <-.
  enough (List.length s4 <= List.length s3) by lia.
  destruct s3 as [|c r0]; [injection Ee as _ <-; lia|].
  destruct (N.eqb c 101 || N.eqb c 69); [|injection Ee as _ <-; lia].
  set (q := match r0 with
            | g :: r' => if N.eqb g 45 then (true, r')
                         else if N.eqb g 43 then (false, r') else (false, r0)
            | [] => (false, r0)
            end) in Ee.
  assert (Hq : List.length (snd q) <= List.length r0).
  { subst q. destruct r0 as [|g r']; [simpl; lia|].
    destruct (N.eqb g 45); [simpl; lia|]. destruct (N.eqb g 43); simpl; lia. }
  destruct q as [eneg r1]. cbn [snd] in Hq.
  pose proof (take_digits_length r1) as H1.
  destruct (take_digits r1) as [[|e0 es] r2]; [discriminate|].
  injection Ee as _ <-. simpl in *. lia.
Qed.

Lemma startsWith_length s p :
  startsWith s p = true -> List.length p <= List.length s.
Proof.
  revert s. induction p as [|x p IH]; intros s H; [simpl; lia|].
  destruct s as [|c s]; [discriminate|].
  simpl in H. apply andb_prop in H as [_ H]. apply IH in H. simpl. lia.
Qed.

Ltac fuel_tac :=
  repeat match goal with
         | H : context [List.length (_ :: _)] |- _ => cbn [List.length] in H
         | |- context [List.length (_ :: _)] => cbn [List.length]
         end; lia.

Lemma parse_fuel f :
  fuel_ok parse_value f /\
  (forall acc, fuel_ok (fun f s => parse_elements f s acc) f) /\
  (forall acc, fuel_ok (fun f s => parse_members f s acc) f).
Proof.
  induction f as [|f (IHv & IHe & IHm)].
  - repeat split; intros; discriminate.
  - split; [|split].
    + intros s v r H. cbn [parse_value] in H.
      pose proof (skip_space_length s) as Ls.
      destruct (skip_space s) as [|c t] eqn:Es; [discriminate|].
      destruct (N.eqb c 123) eqn:E1.
      { pose proof (skip_space_length t) as Lt.
        destruct (skip_space t) as [|c' t'] eqn:Et; [discriminate|].
        destruct (N.eqb c' 125) eqn:E2.
        - injection H as <- <-. split; [fuel_tac|].
          intros [|f'] Hf'; [fuel_tac|].
          cbn [parse_value]. now rewrite Es, E1, Et, E2.
        - apply (IHm []) in H as [Hl Hf]. split; [fuel_tac|].
          intros [|f'] Hf'; [fuel_tac|].
          cbn [parse_value]. rewrite Es, E1, Et, E2. apply Hf. fuel_tac. }
      destruct (N.eqb c 91) eqn:E3.
      { pose proof (skip_space_length t) as Lt.
        destruct (skip_space t) as [|c' t'] eqn:Et; [discriminate|].
        destruct (N.eqb c' 93) eqn:E2.
        - injection H as <- <-. split; [fuel_tac|].
          intros [|f'] Hf'; [fuel_tac|].
          cbn [parse_value]. now rewrite Es, E1, E3, Et, E2.
        - apply (IHe []) in H as [Hl Hf]. split; [fuel_tac|].
          intros [|f'] Hf'; [fuel_tac|].
          cbn [parse_value]. rewrite Es, E1, E3, Et, E2. apply Hf. fuel_tac. }
      destruct (N.eqb c 34) eqn:E4.
      { destruct (parse_string_chars t []) as [[str r']|] eqn:Ep; [|discriminate].
        injection H as <- <-.
        apply (parse_string_chars_length (List.length t)) in Ep as Lp; [|lia].
        split; [fuel_tac|].
        intros [|f'] Hf'; [fuel_tac|].
        cbn [parse_value]. now rewrite Es, E1, E3, E4, Ep. }
      destruct (startsWith (c :: t) (js "true")) eqn:E5.
      { injection H as <- Hr. apply startsWith_length in E5 as L5.
        change (List.length (js "true")) with 4 in L5.
        pose proof (length_skipn 4 (c :: t)) as Lk.
        change (skipn 4 (c :: t) = r) in Hr. rewrite Hr in Lk.
        split; [fuel_tac|].
        intros [|f'] Hf'; [fuel_tac|].
        cbn [parse_value]. rewrite Es, E1, E3, E4, E5.
        do 2 f_equal. exact Hr. }
      destruct (startsWith (c :: t) (js "false")) eqn:E6.
      { injection H as <- Hr. apply startsWith_length in E6 as L5.
        change (List.length (js "false")) with 5 in L5.
        pose proof (length_skipn 5 (c :: t)) as Lk.
        change (skipn 5 (c :: t) = r) in Hr. rewrite Hr in Lk.
        split; [fuel_tac|].
        intros [|f'] Hf'; [fuel_tac|].
        cbn [parse_value]. rewrite Es, E1, E3, E4, E5, E6.
        do 2 f_equal. exact Hr. }
      destruct (startsWith (c :: t) (js "null")) eqn:E7.
      { injection H as <- Hr. apply startsWith_length in E7 as L5.
        change (List.length (js "null")) with 4 in L5.
        pose proof (length_skipn 4 (c :: t)) as Lk.
        change (skipn 4 (c :: t) = r) in Hr. rewrite Hr in Lk.
        split; [fuel_tac|].
        intros [|f'] Hf'; [fuel_tac|].
        cbn [parse_value]. rewrite Es, E1, E3, E4, E5, E6, E7.
        do 2 f_equal. exact Hr. }
      apply parse_number_length in H as Ln.
      split; [fuel_tac|].
      intros [|f'] Hf'; [fuel_tac|].
      cbn [parse_value]. now rewrite Es, E1, E3, E4, E5, E6, E7.
    + intros acc s v r H. cbn [parse_elements] in H.
      destruct (parse_value f s) as [[x t]|] eqn:Ev; [|discriminate].
      apply IHv in Ev as [Lv Fv].
      pose proof (skip_space_length t) as Lt.
      destruct (skip_space t) as [|c t'] eqn:Et; [discriminate|].
      destruct (N.eqb c 44) eqn:E1.
      * apply (IHe (x :: acc)) in H as [Le Fe]. split; [fuel_tac|].
        intros [|f'] Hf'; [fuel_tac|].
        cbn [parse_elements]. rewrite Fv by fuel_tac.
        rewrite Et, E1. apply Fe. fuel_tac.
      * destruct (N.eqb c 93) eqn:E2; [|discriminate].
        injection H as <- <-. split; [fuel_tac|].
        intros [|f'] Hf'; [fuel_tac|].
        cbn [parse_elements]. rewrite Fv by fuel_tac.
        now rewrite Et, E1, E2.
    + intros acc s v r H. cbn [parse_members] in H.
      pose proof (skip_space_length s) as Ls.
      destruct (skip_space s) as [|q t0] eqn:Es; [discriminate|].
      destruct (N.eqb q 34) eqn:E0; [|discriminate].
      destruct (parse_string_chars t0 []) as [[k t1]|] eqn:Ep; [|discriminate].
      apply (parse_string_chars_length (List.length t0)) in Ep as Lp; [|lia].
      pose proof (skip_space_length t1) as L1.
      destruct (skip_space t1) as [|c t2] eqn:E1; [discriminate|].
      destruct (N.eqb c 58) eqn:Ec; [|discriminate].
      destruct (parse_value f t2) as [[x t3]|] eqn:Ev; [|discriminate].
      apply IHv in Ev as [Lv Fv].
      pose proof (skip_space_length t3) as L3.
      destruct (skip_space t3) as [|d t4] eqn:E3; [discriminate|].
      destruct (N.eqb d 44) eqn:Ed.
      * apply (IHm (own_set acc k x)) in H as [Lm Fm]. split; [fuel_tac|].
        intros [|f'] Hf'; [fuel_tac|].
        cbn [parse_members]. rewrite Es, E0, Ep, E1, Ec.
        rewrite Fv by fuel_tac. rewrite E3, Ed. apply Fm. fuel_tac.
      * destruct (N.eqb d 125) eqn:Ed'; [|discriminate].
        injection H as <- <-. split; [fuel_tac|].
        intros [|f'] Hf'; [fuel_tac|].
        cbn [parse_members]. rewrite Es, E0, Ep, E1, Ec.
        rewrite Fv by fuel_tac. now rewrite E3, Ed, Ed'.
Qed.

(** The fuel of [JSON_parse] is no restriction. *)
Lemma JSON_parse_fuel text v :
  JSON_parse text = Some v <->
  exists f r, parse_value f text = Some (v, r) /\ skip_space r = [].
Proof.
  unfold JSON_parse. split.
  - destruct (parse_value _ text) as [[x r]|] eqn:E; [|discriminate].
    destruct (skip_space r) eqn:Er; [|discriminate].
    intros [= <-]. eauto.
  - intros (f & r & H & Hr).
    apply (proj1 (parse_fuel f)) in H as [_ H].
    rewrite (H (2 * List.length text + 2)) by lia.
    now rewrite Hr.
Qed.

(* ================================================================== *)
(** * Strings and own properties                                       *)
(* ================================================================== *)

Lemma str_eqb_refl (a : jsstring) : str_eqb a a = true.
Proof.
  induction a as [|x a IH]; simpl; [reflexivity|].
  now rewrite N.eqb_refl.
Qed.

Lemma str_eqb_eq (a b : jsstring) : str_eqb a b = true <-> a = b.
Proof.
  split; [|intros ->; apply str_eqb_refl].
  revert b; induction a as [|x a IH]; intros [|y b]; simpl; try discriminate; auto.
  intros H. apply andb_prop in H as [Hx Hs].
  apply N.eqb_eq in Hx. f_equal; auto.
Qed.

Lemma own_get_set_same ps k x : own_get (own_set ps k x) k = Some x.
Proof.
  induction ps as [|[k' v] ps IH]; simpl.
  - now rewrite str_eqb_refl.
  - destruct (str_eqb k' k) eqn:E; simpl; rewrite E; auto.
Qed.

Lemma own_get_set_other ps k k' x :
  str_eqb k k' = false -> own_get (own_set ps k x) k' = own_get ps k'.
Proof.
  intros Hk. induction ps as [|[k0 v] ps IH]; simpl.
  - now rewrite Hk.
  - destruct (str_eqb k0 k) eqn:E; simpl.
    + apply str_eqb_eq in E; subst k0. now rewrite Hk.
    + destruct (str_eqb k0 k'); auto.
Qed.

Lemma own_get_delete_same ps k : own_get (own_delete ps k) k = None.
Proof.
  induction ps as [|[k' v] ps IH]; simpl; [reflexivity|].
  destruct (str_eqb k' k) eqn:E; simpl; [assumption|].
  now rewrite E.
Qed.

Lemma own_get_delete_other ps k k' :
  str_eqb k k' = false -> own_get (own_delete ps k) k' = own_get ps k'.
Proof.
  intros Hk. induction ps as [|[k0 v] ps IH]; simpl; [reflexivity|].
  destruct (str_eqb k0 k) eqn:E; simpl.
  - apply str_eqb_eq in E; subst k0. now rewrite Hk.
  - destruct (str_eqb k0 k'); auto.
Qed.

Lemma own_set_same ps k x : own_get ps k = Some x -> own_set ps k x = ps.
Proof.
  induction ps as [|[k' v] ps IH]; simpl; [discriminate|].
  destruct (str_eqb k' k) eqn:E.
  - now intros [= ->].
  - intros H. now rewrite IH.
Qed.

(* ================================================================== *)
(** * The shape of an event that has a delta                           *)
(* ================================================================== *)

Lemma key_name_index0 : key_name (Index 0) = js "0".
Proof. reflexivity. Qed.

(** An event whose [choices?.[0]?.delta] is truthy is an object with an
    own [choices], whose entry [0] is an object with an own [delta]. *)
Lemma delta_of_truthy data d :
  delta_of data = Some d -> truthy d = true ->
  exists ps cs cps,
    data = VObject ps /\
    own_get ps (js "choices") = Some cs /\
    GetOptional cs (Index 0) = VObject cps /\
    own_get cps (js "delta") = Some d.
Proof.
  unfold delta_of. intros H Ht.
  destruct data as [| |b|n|s|l|ps]; simpl in H; try discriminate;
    try (injection H as <-; discriminate).
  change (key_name choices) with (js "choices") in H.
  destruct (own_get ps (js "choices")) as [cs|] eqn:Ecs;
    [|injection H as <-; discriminate].
  injection H as H.
  destruct (GetOptional cs (Index 0)) as [| |b|n|s|l|cps] eqn:Ech;
    try (subst d; discriminate);
    try (subst d; simpl in Ht; discriminate).
  exists ps, cs, cps. repeat split; auto.
  unfold GetOptional, Get in H.
  change (key_name delta) with (js "delta") in H.
  destruct (own_get cps (js "delta")); [congruence|subst d; discriminate].
Qed.

(** Reading the delta back after it was written in place. *)
Lemma delta_of_with_delta data d d' :
  delta_of data = Some d -> truthy d = true ->
  delta_of (with_delta data d') = Some d'.
Proof.
  intros H Ht.
  destruct (delta_of_truthy data d H Ht) as (ps & cs & cps & -> & Ecs & Ech & Ed).
  unfold with_delta, delta_of.
  assert (Hd : GetOptional (VObject ps) choices = cs).
  { unfold GetOptional, Get. change (key_name choices) with (js "choices").
    now rewrite Ecs. }
  rewrite Hd, Ech.
  unfold store at 1. unfold Get.
  change (key_name choices) with (js "choices").
  rewrite own_get_set_same. f_equal.
  assert (Hc : GetOptional (store cs (Index 0) (store (VObject cps) delta d'))
                 (Index 0) = store (VObject cps) delta d').
  { destruct cs as [| |b|n|s|l|qs]; try discriminate.
    - unfold GetOptional, Get in Ech.
      destruct (nth_error s 0); discriminate.
    - destruct l as [|x l]; [discriminate|]. reflexivity.
    - unfold store at 1, GetOptional, Get. now rewrite own_get_set_same. }
  rewrite Hc. unfold store, GetOptional, Get.
  now rewrite own_get_set_same.
Qed.

(** Writing the delta back unchanged changes nothing. *)
Lemma with_delta_same data d :
  delta_of data = Some d -> truthy d = true -> with_delta data d = data.
Proof.
  intros H Ht.
  destruct (delta_of_truthy data d H Ht) as (ps & cs & cps & -> & Ecs & Ech & Ed).
  unfold with_delta.
  assert (Hd : GetOptional (VObject ps) choices = cs).
  { unfold GetOptional, Get. change (key_name choices) with (js "choices").
    now rewrite Ecs. }
  rewrite Hd, Ech.
  assert (H1 : store (VObject cps) delta d = VObject cps).
  { unfold store. f_equal. now apply own_set_same. }
  rewrite H1.
  assert (H2 : store cs (Index 0) (VObject cps) = cs).
  { destruct cs as [| |b|n|s|l|qs]; try reflexivity.
    - destruct l as [|x l]; [reflexivity|].
      unfold GetOptional, Get in Ech. simpl in Ech. now rewrite Ech.
    - unfold store. f_equal. apply own_set_same.
      unfold GetOptional, Get in Ech.
      destruct (own_get qs (key_name (Index 0))); [now subst|discriminate]. }
  rewrite H2. unfold store. f_equal. now apply own_set_same.
Qed.

(** A field that holds something is a field of an object. *)
Lemma field_truthy_object d name :
  truthy (field d name) = true -> exists ps, d = VObject ps.
Proof.
  unfold field, GetOptional, Get.
  destruct d as [| |b|n|s|l|ps]; try discriminate; eauto.
Qed.

(* ================================================================== *)
(** * The combiner                                                     *)
(* ================================================================== *)

(** Concatenation with a string gives a string that holds it. *)
Lemma js_add_string_left s v r :
  js_add (VString s) v = Some r -> exists t, r = VString (s ++ t).
Proof.
  unfold js_add. cbn [ToPrimitive].
  destruct (ToPrimitive v) as [pb|]; [|discriminate].
  cbn [ToString]. destruct (ToString pb) as [sb|]; [|discriminate].
  intros [= <-]. eauto.
Qed.

Lemma js_add_string_right v s r :
  js_add v (VString s) = Some r -> exists t, r = VString (t ++ s).
Proof.
  unfold js_add. cbn [ToPrimitive].
  destruct (ToPrimitive v) as [pa|]; [|discriminate].
  assert (H : match ToString pa with
              | Some sa => Some (VString (sa ++ s))
              | None => None
              end = Some r -> exists t, r = VString (t ++ s)).
  { destruct (ToString pa); [intros [= <-]; eauto|discriminate]. }
  destruct pa; try exact H; cbn [ToString]; intros [= <-]; eauto.
Qed.

(** A text that holds a marker is not empty: the guard
    [if (combinedContent)] never drops a marker. *)
Lemma combine_marks_truthy r c flag text marks flag' :
  combine r c flag = (Some (text, marks), flag') ->
  marks <> [] -> truthy text = true.
Proof.
  unfold combine.
  destruct (truthy r && negb flag) eqn:E1.
  - destruct (js_add (VString THINK_OPEN) r) as [s|] eqn:Ea; [|discriminate].
    apply js_add_string_left in Ea as [t ->].
    destruct (truthy c && true) eqn:E2.
    + destruct (js_add (VString THINK_CLOSE) c) as [cl|] eqn:Eb; [|discriminate].
      apply js_add_string_left in Eb as [u ->].
      destruct (js_add _ _) as [w|] eqn:Ec; [|discriminate].
      apply js_add_string_left in Ec as [x ->].
      intros [= <- _ _] _. reflexivity.
    + destruct (truthy c).
      * destruct (js_add _ c) as [w|] eqn:Ec; [|discriminate].
        apply js_add_string_left in Ec as [x ->].
        intros [= <- _ _] _. reflexivity.
      * intros [= <- _ _] _. reflexivity.
  - destruct (truthy r) eqn:Er.
    + destruct (truthy c && flag) eqn:E2.
      * destruct (js_add (VString THINK_CLOSE) c) as [cl|] eqn:Eb; [|discriminate].
        apply js_add_string_left in Eb as [u ->].
        destruct (js_add r _) as [w|] eqn:Ec; [|discriminate].
        apply js_add_string_right in Ec as [x ->].
        intros [= <- _ _] _. destruct x; reflexivity.
      * destruct (truthy c).
        -- destruct (js_add r c) as [w|]; [|discriminate].
           intros [= _ <- _] H. contradiction.
        -- intros [= _ <- _] H. contradiction.
    + destruct (truthy c && flag) eqn:E2.
      * destruct (js_add (VString THINK_CLOSE) c) as [cl|] eqn:Eb; [|discriminate].
        apply js_add_string_left in Eb as [u ->].
        destruct (js_add _ _) as [w|] eqn:Ec; [|discriminate].
        apply js_add_string_right in Ec as [x ->].
        intros [= <- _ _] _. destruct x; reflexivity.
      * destruct (truthy c).
        -- destruct (js_add _ c) as [w|]; [|discriminate].
           intros [= _ <- _] H. contradiction.
        -- intros [= _ <- _] H. contradiction.
Qed.

(** The markers of a row are the marker literals of its text. *)
Lemma table_marks_in_text r c flag :
  let text_of_field f := match f with Some t => t | None => [] end in
  let marks := table_marks r c flag in
  fst (truth_table r c flag) =
    (if existsb is_open marks then THINK_OPEN else [])
    ++ text_of_field r
    ++ (if existsb (fun m => negb (is_open m)) marks then THINK_CLOSE else [])
    ++ text_of_field c.
Proof.
  destruct r as [r|], c as [c|], flag; cbn -[THINK_OPEN THINK_CLOSE];
    rewrite ?app_nil_r; reflexivity.
Qed.

(** On text fields the combiner never throws and is the truth table. *)
Lemma combine_table r c flag :
  text_or_absent r = true -> text_or_absent c = true ->
  combine r c flag =
    (Some (VString (fst (truth_table (present r) (present c) flag)),
           table_marks (present r) (present c) flag),
     snd (truth_table (present r) (present c) flag)).
Proof.
  intros Hr Hc.
  destruct r as [| |?|?|[|x r]|?|?]; try discriminate;
    destruct c as [| |?|?|[|y c]|?|?]; try discriminate;
    destruct flag; reflexivity.
Qed.

(** The table emits text exactly when a field carries some. *)
Lemma truth_table_empty r c flag :
  fst (truth_table (present r) (present c) flag) = [] <->
  present r = None /\ present c = None.
Proof.
  split.
  - destruct r as [| |?|?|[|x r]|?|?], c as [| |?|?|[|y c]|?|?], flag;
      simpl; try discriminate; auto.
  - intros [-> ->]. reflexivity.
Qed.

Lemma present_some v s : present v = Some s -> v = VString s /\ s <> [].
Proof.
  destruct v as [| |?|?|[|x t]|?|?]; simpl; try discriminate.
  intros [= <-]. split; [reflexivity|discriminate].
Qed.

Lemma present_none_falsy v :
  text_or_absent v = true -> present v = None -> truthy v = false.
Proof.
  destruct v as [| |?|?|[|x t]|?|?]; simpl; try discriminate; reflexivity.
Qed.

(** What a line that reaches the inner [try] and parses turns into. *)
Lemma process_line_parsed mode line data flag :
  reaches_try line = true ->
  JSON_parse (slice line 6) = Some data ->
  process_line mode line flag =
    match rewrite_event mode data flag with
    | (Some (data', marks), flag') => ([WFrame data' marks], flag')
    | (None, flag') => ([WRaw line], flag')
    end.
Proof.
  unfold reaches_try, process_line, try_block. intros H Hp.
  apply andb_prop in H as [H Hd]. apply andb_prop in H as [Ht Hs].
  rewrite Ht, Hs. apply negb_true_iff in Hd. rewrite Hd. cbn [negb].
  rewrite Hp. destruct (rewrite_event mode data flag) as [[[d' m]|] f]; reflexivity.
Qed.

Lemma process_line_unparsed mode line flag :
  reaches_try line = true ->
  JSON_parse (slice line 6) = None ->
  process_line mode line flag = ([WRaw line], flag).
Proof.
  unfold reaches_try, process_line, try_block. intros H Hp.
  apply andb_prop in H as [H Hd]. apply andb_prop in H as [Ht Hs].
  rewrite Ht, Hs. apply negb_true_iff in Hd. rewrite Hd. cbn [negb].
  now rewrite Hp.
Qed.

(** The rewritten event in display mode, on text fields. *)
Lemma rewrite_event_table data d flag :
  delta_of data = Some d -> truthy d = true ->
  text_or_absent (field d reasoning_content) = true ->
  text_or_absent (field d content) = true ->
  let reasoning := present (field d reasoning_content) in
  let content_ := present (field d content) in
  let text := fst (truth_table reasoning content_ flag) in
  rewrite_event true data flag =
    (Some (match text with
           | [] => data
           | _ :: _ =>
               with_delta data (Delete (Put d content (VString text))
                                       reasoning_content)
           end,
           table_marks reasoning content_ flag),
     snd (truth_table reasoning content_ flag)).
Proof.
  intros Hd Ht Hr Hc. cbv zeta.
  unfold rewrite_event. rewrite Hd, Ht.
  fold (field d reasoning_content). fold (field d content).
  rewrite (combine_table _ _ flag Hr Hc).
  destruct (fst (truth_table _ _ flag)) as [|x t] eqn:E.
  - apply truth_table_empty in E as [E1 E2]. rewrite E1, E2. reflexivity.
  - reflexivity.
Qed.

Lemma names_differ :
  str_eqb content reasoning_content = false /\
  str_eqb reasoning_content content = false.
Proof. split; reflexivity. Qed.

(** The delta after [delta.content = x; delete delta.reasoning_content]. *)
Lemma rewritten_delta ps x :
  field (Delete (Put (VObject ps) content x) reasoning_content) content = x /\
  has_own (own_delete (own_set ps content x) reasoning_content)
          reasoning_content = false.
Proof.
  destruct names_differ as [_ H]. split.
  - unfold field, GetOptional, Get, Put, Delete.
    change (key_name (Named content)) with content.
    now rewrite (own_get_delete_other _ _ _ H), own_get_set_same.
  - unfold has_own. now rewrite own_get_delete_same.
Qed.

(* ================================================================== *)
(** * C1: the combiner is the truth table                              *)
(* ================================================================== *)

(** C1.  For every line that parses to an event with a delta whose two
    fields are text (or missing, or null), in display mode: the combiner
    returns the text and the flag of the row of the truth table selected
    by which fields carry text and by the flag; the event is written as
    one frame; when the text is empty the event is written as it came, and
    otherwise the [content] of the outbound delta is that text.  The three
    frames of the scenario produce [<think>\nab], then [\n</think>\n\nX],
    then the termination sentinel; the last part gives the three strings
    written, in which a line feed of the content shows as its JSON
    escape. *)
Theorem combiner_truth_table :
  (forall line data d flag,
      reaches_try line = true ->
      JSON_parse (slice line 6) = Some data ->
      delta_of data = Some d -> truthy d = true ->
      text_or_absent (field d reasoning_content) = true ->
      text_or_absent (field d content) = true ->
      let reasoning := present (field d reasoning_content) in
      let content_ := present (field d content) in
      let text := fst (truth_table reasoning content_ flag) in
      let flag' := snd (truth_table reasoning content_ flag) in
      exists marks data',
        combine (field d reasoning_content) (field d content) flag
          = (Some (VString text, marks), flag') /\
        process_line true line flag = ([WFrame data' marks], flag') /\
        (text = [] -> data' = data) /\
        (text <> [] -> content_of data' = Some (VString text)))
  /\
  (exists ev1 ev2,
      run SHOW_REASONING [Data (bytes (scenario_reasoning ++ [LF]));
                          Data (bytes (scenario_content ++ [LF]));
                          Data (bytes (scenario_done ++ [LF]))] initial
        = ([WFlush; WFrame ev1 [Open]; WFrame ev2 [Close]; WDone],
           {| buffer := []; reasoningStarted := false; hasStarted := true |})
      /\ content_of ev1 = Some (VString (THINK_OPEN ++ js "ab"))
      /\ content_of ev2 = Some (VString (THINK_CLOSE ++ js "X"))
      /\ map text_of [WFrame ev1 [Open]; WFrame ev2 [Close]; WDone]
         = [Some (jq "data: {'choices':[{'delta':{'content':'<think>\nab'}}]}"
                  ++ [LF; LF]);
            Some (jq "data: {'choices':[{'delta':{'content':'\n</think>\n\nX'}}]}"
                  ++ [LF; LF]);
            Some (js "data: [DONE]" ++ [LF; LF])]).
Proof.
  split.
  - intros line data d flag Hl Hp Hd Ht Hr Hc reasoning content_ text flag'.
    pose proof (rewrite_event_table data d flag Hd Ht Hr Hc) as Hrw.
    cbv zeta in Hrw. fold reasoning content_ text flag' in Hrw.
    eexists _, _. split; [apply (combine_table _ _ flag Hr Hc)|].
    split; [rewrite (process_line_parsed true line data flag Hl Hp), Hrw; reflexivity|].
    split.
    + intros ->. reflexivity.
    + intros Hne. destruct text as [|x t] eqn:E; [congruence|].
      assert (Hobj : exists ps, d = VObject ps).
      { destruct reasoning as [r|] eqn:Er.
        - apply present_some in Er as [Er Hn].
          apply (field_truthy_object d reasoning_content).
          rewrite Er. destruct r; [congruence|reflexivity].
        - destruct content_ as [c|] eqn:Ec.
          + apply present_some in Ec as [Ec Hn].
            apply (field_truthy_object d content).
            rewrite Ec. destruct c; [congruence|reflexivity].
          + subst text. destruct flag; discriminate. }
      destruct Hobj as [ps ->].
      unfold content_of. rewrite (delta_of_with_delta _ _ _ Hd Ht). simpl option_map.
      f_equal. apply rewritten_delta.
  - eexists _, _. split; [vm_compute; reflexivity|].
    split; [vm_compute; reflexivity|].
    split; vm_compute; reflexivity.
Qed.

(* ================================================================== *)
(** * C10: empty strings behave as absent fields                       *)
(* ================================================================== *)

(** C10.  The combiner tests its two inputs for truthiness only: an empty
    string gives the same result (text, markers, flag) as a missing field;
    an empty reasoning fragment never raises the flag and never puts an
    open marker into the text; and in display mode an event whose two
    fields are each missing or empty is written as one frame with the
    event exactly as it was parsed. *)
Theorem empty_string_is_absent :
  (forall r c flag,
      combine (VString []) c flag = combine VUndefined c flag /\
      combine r (VString []) flag = combine r VUndefined flag)
  /\
  (forall c flag res flag',
      combine (VString []) c flag = (res, flag') ->
      (flag' = true -> flag = true) /\
      (forall text marks, res = Some (text, marks) -> ~ In Open marks))
  /\
  (forall line data d flag,
      reaches_try line = true ->
      JSON_parse (slice line 6) = Some data ->
      delta_of data = Some d -> truthy d = true ->
      empty_or_absent (field d reasoning_content) = true ->
      empty_or_absent (field d content) = true ->
      rewrite_event true data flag = (Some (data, []), flag) /\
      process_line true line flag = ([WFrame data []], flag)).
Proof.
  split; [|split].
  - intros r c flag. split; reflexivity.
  - intros c flag res flag'. unfold combine.
    cbn [truthy andb].
    destruct (truthy c), flag; cbn [andb];
      repeat match goal with
             | |- context [match js_add ?a ?b with _ => _ end] =>
                 destruct (js_add a b)
             end;
      intros [= <- <-]; (split; [auto; discriminate|]);
      intros text marks [= _ <-]; simpl; intuition discriminate.
  - intros line data d flag Hl Hp Hd Ht Hr Hc.
    assert (Hrw : rewrite_event true data flag = (Some (data, []), flag)).
    { unfold rewrite_event. rewrite Hd, Ht.
      fold (field d reasoning_content). fold (field d content).
      destruct (field d reasoning_content) as [| |?|?|[|? ?]|?|?]; try discriminate;
        destruct (field d content) as [| |?|?|[|? ?]|?|?]; try discriminate;
        reflexivity. }
    split; [exact Hrw|].
    now rewrite (process_line_parsed true line data flag Hl Hp), Hrw.
Qed.

(* ================================================================== *)
(** * C6: display mode off                                             *)
(* ================================================================== *)

(** C6.  With reasoning display disabled, for every line that parses to an
    event whose delta is an object: the event is written as one frame,
    the flag is untouched, the outbound delta has a [content] field, equal
    to the inbound content when that is truthy and to the empty string
    otherwise (so equal to the inbound content whenever that is a string),
    and has no [reasoning_content] field. *)
Theorem mode_off_guarantee :
  forall line data ps flag,
    reaches_try line = true ->
    JSON_parse (slice line 6) = Some data ->
    delta_of data = Some (VObject ps) ->
    exists data' ps',
      process_line false line flag = ([WFrame data' []], flag) /\
      delta_of data' = Some (VObject ps') /\
      own_get ps' content =
        Some (if truthy (field (VObject ps) content)
              then field (VObject ps) content else VString []) /\
      (forall s, own_get ps content = Some (VString s) ->
                 own_get ps' content = Some (VString s)) /\
      own_get ps' reasoning_content = None.
Proof.
  intros line data ps flag Hl Hp Hd.
  set (c := field (VObject ps) content).
  set (x := if truthy c then c else VString []).
  exists (with_delta data (Delete (Put (VObject ps) content x) reasoning_content)),
         (own_delete (own_set ps content x) reasoning_content).
  destruct names_differ as [_ Hn].
  assert (Hx : own_get (own_delete (own_set ps content x) reasoning_content) content
               = Some x).
  { now rewrite (own_get_delete_other _ _ _ Hn), own_get_set_same. }
  split; [|split; [|split; [|split]]].
  - rewrite (process_line_parsed false line data flag Hl Hp).
    unfold rewrite_event. rewrite Hd. cbn [truthy].
    fold (field (VObject ps) content). fold c.
    subst x. destruct (truthy c); reflexivity.
  - now apply (delta_of_with_delta data (VObject ps)).
  - exact Hx.
  - intros s Hs. rewrite Hx. f_equal. subst x c.
    unfold field, GetOptional, Get.
    change (key_name (Named content)) with content. rewrite Hs.
    destruct s; reflexivity.
  - apply own_get_delete_same.
Qed.

(* ================================================================== *)
(** * C3: when [reasoning_content] is stripped                         *)
(* ================================================================== *)

Lemma has_reasoning_content_with_delta data d d' :
  delta_of data = Some d -> truthy d = true ->
  has_reasoning_content (with_delta data d') =
    match d' with
    | VObject ps => has_own ps reasoning_content
    | _ => false
    end.
Proof.
  intros Hd Ht. unfold has_reasoning_content.
  now rewrite (delta_of_with_delta data d d' Hd Ht).
Qed.

Lemma deleted_has_no_reasoning_content d :
  match Delete d reasoning_content with
  | VObject ps => has_own ps reasoning_content
  | _ => false
  end = false.
Proof.
  destruct d as [| |?|?|?|?|ps]; try reflexivity.
  unfold Delete, has_own. now rewrite own_get_delete_same.
Qed.

(** What goes out for a delta that holds an empty [reasoning_content]:
    the frame as it came in. *)
Example empty_reasoning_on_the_wire :
  map text_of (fst (process_line true empty_reasoning_line false))
  = [Some (empty_reasoning_line ++ [LF; LF])].
Proof. vm_compute. reflexivity. Qed.

(** C3, counterexample.  In display mode an event whose combined text is
    empty is written as it came: the empty [reasoning_content] of this one
    stays. *)
Lemma empty_reasoning_content_stays : ~ always_stripped.
Proof.
  intros H.
  specialize (H true empty_reasoning_event false empty_reasoning_event [] false
                eq_refl).
  discriminate H.
Qed.

(** C3, amended.  An event that is re-emitted has no [reasoning_content]
    in its outbound delta when display mode is off, and in display mode
    when the combined text is not empty, which is the case as soon as one
    of the two fields carries text.  In display mode an event whose
    combined text is empty is re-emitted unchanged. *)
Theorem reasoning_content_stripped :
  forall mode data flag data' marks flag',
    rewrite_event mode data flag = (Some (data', marks), flag') ->
    (mode = false -> has_reasoning_content data' = false) /\
    (mode = true ->
     forall d text ms f,
       delta_of data = Some d -> truthy d = true ->
       combine (field d reasoning_content) (field d content) flag
         = (Some (text, ms), f) ->
       (truthy text = true -> has_reasoning_content data' = false) /\
       (truthy text = false -> data' = data)) /\
    (mode = true ->
     forall d,
       delta_of data = Some d -> truthy d = true ->
       text_or_absent (field d reasoning_content) = true ->
       text_or_absent (field d content) = true ->
       present (field d reasoning_content) <> None \/
       present (field d content) <> None ->
       has_reasoning_content data' = false).
Proof.
  intros mode data flag data' marks flag' H.
  split; [|split].
  - intros ->. unfold rewrite_event in H.
    destruct (delta_of data) as [d|] eqn:Hd; [|discriminate].
    destruct (truthy d) eqn:Ht.
    + injection H as <- _ _.
      rewrite (has_reasoning_content_with_delta data d _ Hd Ht).
      apply deleted_has_no_reasoning_content.
    + injection H as <- _ _. unfold has_reasoning_content. rewrite Hd.
      destruct d; try reflexivity. discriminate.
  - intros -> d text ms f Hd Ht Hc. unfold rewrite_event in H.
    rewrite Hd, Ht in H.
    fold (field d reasoning_content) in H. fold (field d content) in H.
    rewrite Hc in H.
    destruct (truthy text) eqn:Etext; injection H as <- _ _.
    + split; [intros _|discriminate].
      rewrite (has_reasoning_content_with_delta data d _ Hd Ht).
      apply deleted_has_no_reasoning_content.
    + split; [discriminate|reflexivity].
  - intros -> d Hd Ht Hr Hc Hsome.
    rewrite (rewrite_event_table data d flag Hd Ht Hr Hc) in H.
    destruct (fst (truth_table _ _ flag)) as [|x t] eqn:E.
    + apply truth_table_empty in E. tauto.
    + injection H as <- _ _.
      rewrite (has_reasoning_content_with_delta data d _ Hd Ht).
      apply deleted_has_no_reasoning_content.
Qed.

(* ================================================================== *)
(** * C4: what counts as the termination line                          *)
(* ================================================================== *)

(** The test of the handler: a data line terminates as soon as the token
    occurs anywhere in it. *)
Lemma terminates_iff_includes mode line flag :
  truthy (VString (trim line)) = true ->
  startsWith line DATA_PREFIX = true ->
  (process_line mode line flag = ([WDone], flag) <->
   includes line DONE_TOKEN = true).
Proof.
  intros Ht Hs. unfold process_line. rewrite Ht, Hs. cbn [negb].
  destruct (includes line DONE_TOKEN); [tauto|].
  split; [|discriminate].
  destruct (try_block mode line flag) as [[e|] f] eqn:E.
  - intros [= -> _].
    unfold try_block in E.
    destruct (JSON_parse (slice line 6)); [|discriminate].
    destruct (rewrite_event mode v flag) as [[[? ?]|] ?]; discriminate.
  - discriminate.
Qed.

(** C4, at the failing input.  The line
    [data: {"choices":[{"delta":{"content":"[DONE]"}}]}] has a payload that
    is not the sentinel and that decodes to an event, yet in both modes and
    with either flag the handler writes the termination sentinel for it
    and nothing else. *)
Theorem sentinel_inside_payload_terminates :
  forall mode flag,
    slice sentinel_in_content 6 <> DONE_TOKEN /\
    (exists data, JSON_parse (slice sentinel_in_content 6) = Some data /\
                  content_of data = Some (VString DONE_TOKEN)) /\
    process_line mode sentinel_in_content flag = ([WDone], flag).
Proof.
  intros mode flag. split; [intros H; vm_compute in H; discriminate H|]. split.
  - eexists. split; vm_compute; reflexivity.
  - destruct mode, flag; vm_compute; reflexivity.
Qed.

(* ================================================================== *)
(** * C7: a malformed frame is passed through                          *)
(* ================================================================== *)

(** C7.  In both modes, with either flag and whether or not headers were
    flushed: the chunk made of the line [data: {not json] and a
    termination line writes the malformed line, framed by two line feeds,
    then the termination event; the flag and the (empty) buffer are as
    before.  Whatever lines follow the malformed one are processed as if
    it had not been there. *)
Theorem malformed_frame_passes_through :
  forall mode flag started,
    on_data mode (bytes (malformed_line ++ [LF] ++ scenario_done ++ [LF]))
            {| buffer := []; reasoningStarted := flag; hasStarted := started |}
      = ((if started then [] else [WFlush]) ++ [WRaw malformed_line; WDone],
         {| buffer := []; reasoningStarted := flag; hasStarted := true |})
    /\ text_of (WRaw malformed_line) = Some (malformed_line ++ [LF; LF])
    /\ text_of WDone = Some (js "data: [DONE]" ++ [LF; LF])
    /\ forall rest,
         forEach mode (malformed_line :: rest) flag
           = (WRaw malformed_line :: fst (forEach mode rest flag),
              snd (forEach mode rest flag)).
Proof.
  intros mode flag started. split; [|split; [|split]].
  - destruct mode, flag, started; vm_compute; reflexivity.
  - reflexivity.
  - reflexivity.
  - intros rest. cbn [forEach].
    rewrite (process_line_unparsed mode malformed_line flag eq_refl eq_refl).
    destruct (forEach mode rest flag). reflexivity.
Qed.

(* ================================================================== *)
(** * C5: the line framer                                              *)
(* ================================================================== *)

Lemma split_nl_nonempty s : split_nl s <> [].
Proof.
  destruct s as [|c s]; simpl; [discriminate|].
  destruct (N.eqb c LF); [discriminate|].
  destruct (split_nl s); discriminate.
Qed.

(** [lines.pop() || ''] is the popped segment. *)
Lemma pop_or_empty (s : jsstring) :
  (if truthy (VString s) then s else []) = s.
Proof. destruct s; reflexivity. Qed.

(** Splitting a concatenation: the complete segments of the first part,
    then the split of its last segment followed by the second part. *)
Lemma split_nl_app a b :
  split_nl (a ++ b) =
  removelast (split_nl a) ++ split_nl (last (split_nl a) [] ++ b).
Proof.
  induction a as [|c a IH]; [reflexivity|].
  cbn [app split_nl]. destruct (N.eqb c LF) eqn:Ec.
  - rewrite IH.
    destruct (split_nl a) as [|l ls] eqn:E; [now apply split_nl_nonempty in E|].
    reflexivity.
  - rewrite IH.
    destruct (split_nl a) as [|l ls] eqn:E; [now apply split_nl_nonempty in E|].
    destruct ls as [|l' ls].
    + cbn [removelast last app split_nl]. now rewrite Ec.
    + reflexivity.
Qed.

Lemma last_app_nonempty (A : Type) (l l' : list A) (d : A) :
  l' <> [] -> last (l ++ l') d = last l' d.
Proof.
  intros H. induction l as [|x l IH]; [reflexivity|].
  cbn [app last]. rewrite IH.
  destruct (l ++ l') eqn:E; [|reflexivity].
  apply app_eq_nil in E as [_ ->]. contradiction.
Qed.

(** The last segment of a split holds no line feed. *)
Lemma split_nl_last s :
  split_nl (last (split_nl s) []) = [last (split_nl s) []].
Proof.
  induction s as [|c s IH]; [reflexivity|].
  cbn [split_nl]. destruct (N.eqb c LF) eqn:Ec.
  - destruct (split_nl s) as [|l ls] eqn:E; [now apply split_nl_nonempty in E|].
    exact IH.
  - destruct (split_nl s) as [|l ls] eqn:E; [now apply split_nl_nonempty in E|].
    destruct ls as [|l' ls].
    + cbn [last] in *. cbn [split_nl]. rewrite Ec, IH. reflexivity.
    + exact IH.
Qed.

(** No code unit is lost: the yielded lines, each followed by the line
    feed that ended it, and the remainder give back the text. *)
Lemma split_nl_join s :
  List.concat (map (fun l => l ++ [LF]) (removelast (split_nl s)))
  ++ last (split_nl s) [] = s.
Proof.
  induction s as [|c s IH]; [reflexivity|].
  cbn [split_nl]. destruct (N.eqb c LF) eqn:Ec.
  - apply N.eqb_eq in Ec. subst c.
    destruct (split_nl s) as [|l ls] eqn:E; [now apply split_nl_nonempty in E|].
    cbn [removelast map List.concat last app] in *. now rewrite IH.
  - destruct (split_nl s) as [|l ls] eqn:E; [now apply split_nl_nonempty in E|].
    destruct ls as [|l' ls].
    + cbn [removelast map List.concat last app] in *. now rewrite IH.
    + cbn [removelast map List.concat last app] in *.
      rewrite <- app_assoc in *. cbn [app]. now rewrite IH.
Qed.

Lemma frame_text buffer chunk :
  frame buffer chunk =
    (removelast (split_nl (buffer ++ Buffer_toString chunk)),
     last (split_nl (buffer ++ Buffer_toString chunk)) []).
Proof. unfold frame. now rewrite pop_or_empty. Qed.

(** Over the separately decoded chunks the framer is invariant under the
    cut: it yields the lines of the concatenated text. *)
Lemma feed_text buffer chunks :
  split_nl buffer = [buffer] ->
  feed buffer chunks =
    (removelast (split_nl (buffer ++ List.concat (map Buffer_toString chunks))),
     last (split_nl (buffer ++ List.concat (map Buffer_toString chunks))) []).
Proof.
  revert buffer. induction chunks as [|chunk rest IH]; intros buffer Hb.
  - cbn [feed map List.concat]. rewrite app_nil_r, Hb. reflexivity.
  - cbn [feed map List.concat]. rewrite frame_text.
    rewrite (IH _ (split_nl_last _)).
    rewrite app_assoc.
    rewrite (split_nl_app (buffer ++ Buffer_toString chunk)).
    set (X := split_nl (buffer ++ Buffer_toString chunk)).
    set (Y := split_nl (last X [] ++ List.concat (map Buffer_toString rest))).
    assert (HY : Y <> []) by apply split_nl_nonempty.
    rewrite (removelast_app _ HY).
    f_equal. now rewrite (last_app_nonempty _ _ Y [] HY).
Qed.

(** A chunk that completes no line yields nothing. *)
Lemma frame_no_newline buffer chunk :
  split_nl (buffer ++ Buffer_toString chunk) = [buffer ++ Buffer_toString chunk] ->
  frame buffer chunk = ([], buffer ++ Buffer_toString chunk).
Proof. intros H. rewrite frame_text, H. reflexivity. Qed.

(** C5, at the failing input.  A content frame whose text is the letter
    U+00E9 (UTF-8 bytes C3 A9) arrives once as one chunk and once cut
    between the two bytes of the letter.  As one chunk the framer yields
    the line and the client gets the letter; cut in two, each half of the
    letter is decoded on its own, the framer yields another line, and the
    client gets two replacement characters. *)
Theorem split_inside_character_changes_line :
  exists good bad ev_good ev_bad,
    feed [] [accent_head ++ accent_tail] = ([good], []) /\
    feed [] [accent_head; accent_tail] = ([bad], []) /\
    good <> bad /\
    fst (run true [Data (accent_head ++ accent_tail)] initial)
      = [WFlush; WFrame ev_good []] /\
    fst (run true [Data accent_head; Data accent_tail] initial)
      = [WFlush; WFrame ev_bad []] /\
    content_of ev_good = Some (VString [233%N]) /\
    content_of ev_bad = Some (VString [REPLACEMENT; REPLACEMENT]).
Proof.
  eexists _, _, _, _.
  split; [vm_compute; reflexivity|].
  split; [vm_compute; reflexivity|].
  split; [intros H; vm_compute in H; discriminate H|].
  split; [vm_compute; reflexivity|].
  split; [vm_compute; reflexivity|].
  split; vm_compute; reflexivity.
Qed.

(* ================================================================== *)
(** * Traces of a request                                              *)
(* ================================================================== *)

Lemma forEach_app mode l1 l2 flag :
  forEach mode (l1 ++ l2) flag =
    (fst (forEach mode l1 flag)
       ++ fst (forEach mode l2 (snd (forEach mode l1 flag))),
     snd (forEach mode l2 (snd (forEach mode l1 flag)))).
Proof.
  revert flag. induction l1 as [|line l1 IH]; intros flag.
  - cbn [app forEach fst snd]. now destruct (forEach mode l2 flag).
  - cbn [app forEach].
    destruct (process_line mode line flag) as [o f].
    rewrite IH.
    destruct (forEach mode l1 f) as [o1 f1]. cbn [fst snd].
    destruct (forEach mode l2 f1) as [o2 f2]. cbn [fst snd].
    now rewrite app_assoc.
Qed.

Lemma run_app mode a b st :
  run mode (a ++ b) st =
    (fst (run mode a st) ++ fst (run mode b (snd (run mode a st))),
     snd (run mode b (snd (run mode a st)))).
Proof.
  revert st. induction a as [|sig a IH]; intros st.
  - cbn [app run fst snd]. now destruct (run mode b st).
  - cbn [app run].
    destruct (dispatch mode sig st) as [o s].
    rewrite IH.
    destruct (run mode a s) as [o1 s1]. cbn [fst snd].
    destruct (run mode b s1) as [o2 s2]. cbn [fst snd].
    now rewrite app_assoc.
Qed.

(** The [data] listener flushes, forwards sentinels, writes frames and
    passes lines through; it never closes the sink. *)
Lemma process_line_emits mode line flag :
  forallb from_data_listener (fst (process_line mode line flag)) = true.
Proof.
  unfold process_line.
  destruct (negb (truthy (VString (trim line)))); [reflexivity|].
  destruct (startsWith line DATA_PREFIX); [|reflexivity].
  destruct (includes line DONE_TOKEN); [reflexivity|].
  unfold try_block.
  destruct (JSON_parse (slice line 6)) as [data|]; [|reflexivity].
  destruct (rewrite_event mode data flag) as [[[d m]|] f]; reflexivity.
Qed.

Lemma forEach_emits mode lines flag :
  forallb from_data_listener (fst (forEach mode lines flag)) = true.
Proof.
  revert flag. induction lines as [|line lines IH]; intros flag; [reflexivity|].
  cbn [forEach].
  pose proof (process_line_emits mode line flag) as H.
  destruct (process_line mode line flag) as [o f].
  specialize (IH f). destruct (forEach mode lines f) as [o' f'].
  cbn [fst] in *. rewrite forallb_app. now rewrite H, IH.
Qed.

Lemma on_data_emits mode chunk st :
  forallb from_data_listener (fst (on_data mode chunk st)) = true.
Proof.
  unfold on_data. destruct (frame (buffer st) chunk) as [lines b].
  pose proof (forEach_emits mode lines (reasoningStarted st)) as H.
  destruct (forEach mode lines (reasoningStarted st)) as [o f].
  cbn [fst] in *. rewrite forallb_app, H.
  now destruct (hasStarted st).
Qed.

Lemma run_data_emits mode chunks st :
  forallb from_data_listener (fst (run mode (map Data chunks) st)) = true.
Proof.
  revert st. induction chunks as [|chunk chunks IH]; intros st; [reflexivity|].
  cbn [map run dispatch].
  pose proof (on_data_emits mode chunk st) as H.
  destruct (on_data mode chunk st) as [o s].
  specialize (IH s). destruct (run mode (map Data chunks) s) as [o' s'].
  cbn [fst] in *. rewrite forallb_app. now rewrite H, IH.
Qed.

Lemma from_data_listener_not_in e body :
  forallb from_data_listener body = true ->
  from_data_listener e = false -> ~ In e body.
Proof.
  intros Hall He Hin. rewrite forallb_forall in Hall.
  specialize (Hall e Hin). congruence.
Qed.

(** A request is its chunks, then one run of a finalizer. *)
Lemma run_request mode chunks final :
  run mode (request chunks final) initial =
    (fst (run mode (map Data chunks) initial)
       ++ fst (dispatch mode final (snd (run mode (map Data chunks) initial))),
     snd (dispatch mode final (snd (run mode (map Data chunks) initial)))).
Proof.
  unfold request. rewrite run_app. cbn [run].
  destruct (dispatch mode final _) as [o s]. cbn [fst snd].
  now rewrite app_nil_r.
Qed.

(* ================================================================== *)
(** * C9: finalization on error                                        *)
(* ================================================================== *)


(* ================================================================== *)
(** * C8: what follows the termination sentinel                        *)
(* ================================================================== *)

Lemma process_line_sentinel mode flag :
  process_line mode scenario_done flag = ([WDone], flag).
Proof. reflexivity. Qed.

(** The usual end of a stream: the backend sends the sentinel line, then
    the stream ends. *)
Example sentinel_then_end_trace :
  fst (run true (request [bytes (scenario_done ++ [LF])] EndOfStream) initial)
  = [WFlush; WDone; WDone; WEnd].
Proof. vm_compute. reflexivity. Qed.

(** C8, counterexample.  A stream that carries the sentinel line and then
    ends: the sentinel is written when the line arrives and again by the
    [end] listener. *)
Lemma sentinel_written_twice : ~ nothing_after_sentinel.
Proof.
  intros H.
  specialize (H true [bytes (scenario_done ++ [LF])] EndOfStream eq_refl).
  vm_compute in H. discriminate H.
Qed.

(** C8, amended.  For every request (chunks, then the end of the stream or
    an error): the finalizer writes the sentinel and closes the sink as
    its last two actions, the sink is closed once, and nothing follows the
    close.  The sentinel is no barrier: a sentinel line is answered by one
    sentinel write where it stands, the lines after it are processed as
    they would be without it, and the finalizer writes a sentinel of its
    own. *)
Theorem nothing_after_close :
  forall mode chunks final,
    is_final final = true ->
    (exists before,
        fst (run mode (request chunks final) initial)
          = before ++ [WDone; WEnd] /\
        ~ In WEnd before) /\
    (forall l1 l2 flag,
        forEach mode (l1 ++ scenario_done :: l2) flag
          = (fst (forEach mode l1 flag) ++ WDone
               :: fst (forEach mode l2 (snd (forEach mode l1 flag))),
             snd (forEach mode l2 (snd (forEach mode l1 flag))))).
Proof.
  intros mode chunks final Hf. split.
  - rewrite run_request. cbn [fst].
    pose proof (run_data_emits mode chunks initial) as Hall.
    set (body := fst (run mode (map Data chunks) initial)) in *.
    set (st := snd (run mode (map Data chunks) initial)).
    destruct final as [c| |m]; [discriminate| |]; cbn [dispatch fst].
    + unfold on_end. destruct (reasoningStarted st).
      * exists (body ++ [WAutoClose]). split; [now rewrite <- app_assoc|].
        intros Hin. apply in_app_or in Hin as [Hin|[Hin|[]]]; [|discriminate].
        now apply (from_data_listener_not_in WEnd _ Hall).
      * exists body. split; [reflexivity|].
        now apply (from_data_listener_not_in WEnd _ Hall).
    + exists (body ++ [WError m]). split; [now rewrite <- app_assoc|].
      intros Hin. apply in_app_or in Hin as [Hin|[Hin|[]]]; [|discriminate].
      now apply (from_data_listener_not_in WEnd _ Hall).
  - intros l1 l2 flag. rewrite forEach_app. cbn [forEach].
    rewrite (process_line_sentinel mode (snd (forEach mode l1 flag))).
    destruct (forEach mode l2 (snd (forEach mode l1 flag))). reflexivity.
Qed.

(* ================================================================== *)
(** * C2: reasoning blocks open and close in turn                      *)
(* ================================================================== *)

Lemma markers_app t1 t2 : markers (t1 ++ t2) = markers t1 ++ markers t2.
Proof. apply flat_map_app. Qed.









(* ================================================================== *)
(** * The theorems at concrete inputs                                  *)
(* ================================================================== *)

(** The first frame of the scenario, flag down: the row "reasoning only,
    not open" of the table. *)
Lemma combiner_truth_table_witness :
  reaches_try scenario_reasoning = true /\
  JSON_parse (slice scenario_reasoning 6) = Some scenario_event /\
  delta_of scenario_event = Some scenario_delta /\
  exists marks data',
    process_line true scenario_reasoning false = ([WFrame data' marks], true) /\
    content_of data' = Some (VString (THINK_OPEN ++ js "ab")).
Proof.
  split; [vm_compute; reflexivity|].
  split; [vm_compute; reflexivity|].
  split; [vm_compute; reflexivity|].
  destruct (proj1 combiner_truth_table scenario_reasoning scenario_event
              scenario_delta false)
    as (marks & data' & _ & Hp & _ & Hc);
    try (vm_compute; reflexivity).
  exists marks, data'. split; [exact Hp|].
  apply Hc. discriminate.
Defined.

(** A delta with an empty [reasoning_content], flag up: written as it
    came, flag still up. *)
Lemma empty_string_is_absent_witness :
  reaches_try empty_reasoning_line = true /\
  JSON_parse (slice empty_reasoning_line 6) = Some empty_reasoning_event /\
  process_line true empty_reasoning_line true
    = ([WFrame empty_reasoning_event []], true).
Proof.
  split; [vm_compute; reflexivity|].
  split; [vm_compute; reflexivity|].
  refine (proj2 (proj2 (proj2 empty_string_is_absent) empty_reasoning_line
                   empty_reasoning_event
                   (VObject [(reasoning_content, VString [])]) true
                   _ _ _ _ _ _));
    vm_compute; reflexivity.
Defined.

(** The first frame of the scenario with display mode off: the outbound
    delta holds an empty [content] and nothing else. *)
Lemma mode_off_guarantee_witness :
  exists data' ps',
    process_line false scenario_reasoning false = ([WFrame data' []], false) /\
    delta_of data' = Some (VObject ps') /\
    own_get ps' content = Some (VString []) /\
    own_get ps' reasoning_content = None.
Proof.
  destruct (mode_off_guarantee scenario_reasoning scenario_event
              [(reasoning_content, VString (js "ab"))] false)
    as (data' & ps' & Hp & Hd & Hc & _ & Hr);
    try (vm_compute; reflexivity).
  exists data', ps'. repeat split; assumption.
Defined.

(** The first event of the scenario loses its [reasoning_content] in
    either mode. *)
Lemma reasoning_content_stripped_witness :
  rewrite_event false scenario_event false
    = (Some (event_of_delta (VObject [(content, VString [])]), []), false) /\
  has_reasoning_content (event_of_delta (VObject [(content, VString [])]))
    = false /\
  rewrite_event true scenario_event false
    = (Some (event_of_delta (VObject [(content, VString (THINK_OPEN ++ js "ab"))]),
             [Open]), true) /\
  has_reasoning_content
    (event_of_delta (VObject [(content, VString (THINK_OPEN ++ js "ab"))]))
    = false.
Proof.
  split; [vm_compute; reflexivity|].
  split.
  - refine (proj1 (reasoning_content_stripped false scenario_event false
                     _ [] false _) eq_refl).
    vm_compute; reflexivity.
  - split; [vm_compute; reflexivity|].
    refine (proj2 (proj2 (reasoning_content_stripped true scenario_event false
                            _ [Open] true _)) eq_refl scenario_delta _ _ _ _ _).
    + vm_compute; reflexivity.
    + vm_compute; reflexivity.
    + vm_compute; reflexivity.
    + vm_compute; reflexivity.
    + vm_compute; reflexivity.
    + left. vm_compute. discriminate.
Defined.

(** The stream that sends the sentinel line and ends: the trace closes
    with the sentinel of the finalizer and the close. *)
Lemma nothing_after_close_witness :
  is_final EndOfStream = true /\
  exists before,
    fst (run true (request [bytes (scenario_done ++ [LF])] EndOfStream) initial)
      = before ++ [WDone; WEnd] /\
    ~ In WEnd before.
Proof.
  split; [reflexivity|].
  exact (proj1 (nothing_after_close true [bytes (scenario_done ++ [LF])]
                  EndOfStream eq_refl)).
Defined.


Import Handler.
Import Beyond.

(* ================================================================== *)
(** * Beyond the claims: the [data] listener over a whole stream       *)
(* ================================================================== *)

(** What a run of chunks does, in terms of the framer over all of them. *)
Lemma run_data_feed mode chunks st :
  run mode (map Data chunks) st =
    ((if hasStarted st || match chunks with [] => true | _ => false end
      then [] else [WFlush])
     ++ fst (forEach mode (fst (feed (buffer st) chunks)) (reasoningStarted st)),
     match chunks with
     | [] => st
     | _ :: _ =>
         {| buffer := snd (feed (buffer st) chunks);
            reasoningStarted :=
              snd (forEach mode (fst (feed (buffer st) chunks))
                           (reasoningStarted st));
            hasStarted := true |}
     end).
Proof.
  revert st. induction chunks as [|chunk chunks IH]; intros st.
  - destruct st as [b r h]. cbn. now rewrite orb_true_r.
  - cbn [map run dispatch feed]. unfold on_data.
    destruct (frame (buffer st) chunk) as [lines b'].
    destruct (forEach mode lines (reasoningStarted st)) as [o f] eqn:Ef.
    rewrite IH. cbn [buffer reasoningStarted hasStarted orb app].
    destruct (feed b' chunks) as [lines' b''] eqn:Efeed. cbn [fst snd].
    rewrite forEach_app, Ef. cbn [fst snd].
    rewrite orb_false_r.
    destruct chunks as [|c cs].
    + cbn in Efeed. injection Efeed as <- <-. cbn [forEach fst snd].
      rewrite !app_nil_r. reflexivity.
    + rewrite app_assoc. reflexivity.
Qed.

(** A run of chunks, from the text they decode to. *)
Lemma run_data_text mode chunk chunks :
  run mode (map Data (chunk :: chunks)) initial =
    (WFlush
       :: fst (forEach mode (complete_lines (decoded (chunk :: chunks))) false),
     {| buffer := remainder (decoded (chunk :: chunks));
        reasoningStarted :=
          snd (forEach mode (complete_lines (decoded (chunk :: chunks))) false);
        hasStarted := true |}).
Proof.
  rewrite run_data_feed. cbn [hasStarted buffer reasoningStarted initial orb].
  rewrite (feed_text [] (chunk :: chunks) eq_refl).
  reflexivity.
Qed.

(** X1.  The trace and the state after any non-empty sequence of chunks
    depend on the chunks only through the text they decode to: the
    headers are flushed once, every complete line of the text is handed
    to the line callback in order, and the buffer keeps what follows the
    last line feed. *)
Theorem output_depends_on_text_only :
  forall mode chunk chunks,
    let text := decoded (chunk :: chunks) in
    run mode (map Data (chunk :: chunks)) initial =
      (WFlush :: fst (forEach mode (complete_lines text) false),
       {| buffer := remainder text;
          reasoningStarted := snd (forEach mode (complete_lines text) false);
          hasStarted := true |}).
Proof.
  intros mode chunk chunks text. subst text.
  rewrite run_data_feed. cbn [hasStarted buffer reasoningStarted initial orb].
  rewrite (feed_text [] (chunk :: chunks) eq_refl).
  reflexivity.
Qed.

(* ------------------------------------------------------------------ *)

Lemma split_nl_no_lf s : no_lf s = true -> split_nl s = [s].
Proof.
  induction s as [|c s IH]; [reflexivity|].
  cbn [no_lf forallb]. intros H. apply andb_prop in H as [Hc Hs].
  apply negb_true_iff in Hc. cbn [split_nl]. rewrite Hc.
  fold (no_lf s) in Hs. now rewrite (IH Hs).
Qed.

Lemma no_lf_split_nl s : split_nl s = [s] -> no_lf s = true.
Proof.
  induction s as [|c s IH]; [reflexivity|].
  cbn [split_nl no_lf forallb]. destruct (N.eqb c LF) eqn:Ec.
  - intros H. discriminate H.
  - destruct (split_nl s) as [|l ls] eqn:E; [now apply split_nl_nonempty in E|].
    intros [= -> ->]. cbn [negb andb]. now apply IH.
Qed.

Lemma no_lf_app a b : no_lf (a ++ b) = no_lf a && no_lf b.
Proof. apply forallb_app. Qed.

(** A text without a line feed, added at the end, completes no line. *)
Lemma complete_lines_app_no_lf s t :
  no_lf t = true -> complete_lines (s ++ t) = complete_lines s.
Proof.
  intros Ht. unfold complete_lines. rewrite split_nl_app.
  assert (H : no_lf (last (split_nl s) [] ++ t) = true).
  { rewrite no_lf_app, Ht, andb_true_r.
    apply no_lf_split_nl, split_nl_last. }
  rewrite (split_nl_no_lf _ H). apply removelast_last.
Qed.

Lemma decoded_app a b : decoded (a ++ b) = decoded a ++ decoded b.
Proof. unfold decoded. now rewrite map_app, concat_app. Qed.

(** The trace of a request, from the text of its chunks. *)
Lemma request_trace mode chunk chunks final :
  fst (run mode (request (chunk :: chunks) final) initial) =
    WFlush :: fst (forEach mode (complete_lines (decoded (chunk :: chunks))) false)
    ++ fst (dispatch mode final
              {| buffer := remainder (decoded (chunk :: chunks));
                 reasoningStarted :=
                   snd (forEach mode
                          (complete_lines (decoded (chunk :: chunks))) false);
                 hasStarted := true |}).
Proof.
  rewrite run_request. cbn [fst].
  now rewrite run_data_text.
Qed.

(** X3.  What follows the last line feed of the stream is never
    processed: a last chunk that holds no line feed, so that the line it
    belongs to is not terminated, changes nothing of what the request
    sends, whether the stream then ends or fails. *)
Theorem unterminated_last_line_is_dropped :
  forall mode chunk chunks tail final,
    is_final final = true ->
    no_lf (Buffer_toString tail) = true ->
    fst (run mode (request (chunk :: chunks ++ [tail]) final) initial)
    = fst (run mode (request (chunk :: chunks) final) initial).
Proof.
  intros mode chunk chunks tail final Hf Ht.
  change (chunk :: chunks ++ [tail]) with ((chunk :: chunks) ++ [tail]).
  destruct ((chunk :: chunks) ++ [tail]) as [|c cs] eqn:E; [discriminate|].
  rewrite (request_trace mode c cs), (request_trace mode chunk chunks).
  rewrite <- E, decoded_app.
  replace (decoded [tail]) with (Buffer_toString tail)
    by (unfold decoded; cbn; now rewrite app_nil_r).
  rewrite (complete_lines_app_no_lf _ _ Ht).
  destruct final as [x| |m]; [discriminate| |]; reflexivity.
Qed.

(* ------------------------------------------------------------------ *)

(** One line: one write if it is a data line, none otherwise. *)
Lemma process_line_writes mode line flag :
  fst (process_line mode line flag) = filter is_write (fst (process_line mode line flag))
  /\ List.length (fst (process_line mode line flag))
     = if is_data_line line then 1 else 0.
Proof.
  unfold process_line, is_data_line.
  destruct (truthy (VString (trim line))); cbn [negb andb]; [|split; reflexivity].
  destruct (startsWith line DATA_PREFIX); [|split; reflexivity].
  destruct (includes line DONE_TOKEN); [split; reflexivity|].
  unfold try_block.
  destruct (JSON_parse (slice line 6)) as [data|]; [|split; reflexivity].
  destruct (rewrite_event mode data flag) as [[[d m]|] f]; split; reflexivity.
Qed.

Lemma forEach_writes mode lines flag :
  fst (forEach mode lines flag) = filter is_write (fst (forEach mode lines flag))
  /\ List.length (fst (forEach mode lines flag))
     = List.length (filter is_data_line lines).
Proof.
  revert flag. induction lines as [|line lines IH]; intros flag; [split; reflexivity|].
  cbn [forEach filter].
  destruct (process_line_writes mode line flag) as [H1 H2].
  destruct (process_line mode line flag) as [o f]. cbn [fst] in *.
  destruct (IH f) as [H3 H4].
  destruct (forEach mode lines f) as [o' f']. cbn [fst] in *.
  split.
  - rewrite filter_app, <- H1, <- H3. reflexivity.
  - rewrite length_app, H2, H4. destruct (is_data_line line); reflexivity.
Qed.

(** X5.  The [data] listener writes once for every complete line of the
    stream that is not blank and starts with [data: ], in the order of the
    lines, and never for any other line: nothing is batched, repeated or
    held back. *)
Theorem one_write_per_data_line :
  forall mode chunk chunks,
    let text := decoded (chunk :: chunks) in
    let trace := fst (run mode (map Data (chunk :: chunks)) initial) in
    filter is_write trace = fst (forEach mode (complete_lines text) false) /\
    List.length (filter is_write trace)
      = List.length (filter is_data_line (complete_lines text)).
Proof.
  intros mode chunk chunks text trace. subst trace text.
  rewrite run_data_text. cbn [fst filter is_write].
  destruct (forEach_writes mode (complete_lines (decoded (chunk :: chunks))) false)
    as [H1 H2].
  rewrite <- H1. split; [reflexivity|exact H2].
Qed.

(* ------------------------------------------------------------------ *)

Lemma process_line_off line flag :
  snd (process_line false line flag) = flag /\
  markers (fst (process_line false line flag)) = [].
Proof.
  unfold process_line.
  destruct (negb (truthy (VString (trim line)))); [split; reflexivity|].
  destruct (startsWith line DATA_PREFIX); [|split; reflexivity].
  destruct (includes line DONE_TOKEN); [split; reflexivity|].
  unfold try_block.
  destruct (JSON_parse (slice line 6)) as [data|]; [|split; reflexivity].
  unfold rewrite_event.
  destruct (delta_of data) as [d|]; [|split; reflexivity].
  destruct (truthy d); split; reflexivity.
Qed.

Lemma forEach_off lines flag :
  snd (forEach false lines flag) = flag /\
  markers (fst (forEach false lines flag)) = [].
Proof.
  revert flag. induction lines as [|line lines IH]; intros flag; [split; reflexivity|].
  cbn [forEach].
  destruct (process_line_off line flag) as [H1 H2].
  destruct (process_line false line flag) as [o f]. cbn [fst snd] in *. subst f.
  destruct (IH flag) as [H3 H4].
  destruct (forEach false lines flag) as [o' f']. cbn [fst snd] in *.
  split; [assumption|]. now rewrite markers_app, H2, H4.
Qed.

Lemma markers_nil_no_autoclose trace :
  markers trace = [] -> ~ In WAutoClose trace.
Proof.
  induction trace as [|e trace IH]; [auto|].
  cbn [markers flat_map]. intros H [->|Hin].
  - discriminate.
  - apply app_eq_nil in H as [_ H]. now apply IH.
Qed.

(** X4.  With reasoning display disabled the handler never raises the
    flag and never sends a marker, whatever arrives and in whatever order
    the signals come: no frame carries [<think>] or [</think>] put there
    by the combiner, and the [end] listener writes no closing frame. *)
Theorem mode_off_sends_no_marker :
  forall sigs,
    reasoningStarted (snd (run false sigs initial)) = false /\
    markers (fst (run false sigs initial)) = [] /\
    ~ In WAutoClose (fst (run false sigs initial)).
Proof.
  assert (H : forall sigs st, reasoningStarted st = false ->
            reasoningStarted (snd (run false sigs st)) = false /\
            markers (fst (run false sigs st)) = []).
  { induction sigs as [|sig sigs IH]; intros st Hst; [split; [exact Hst|reflexivity]|].
    cbn [run].
    assert (Hd : reasoningStarted (snd (dispatch false sig st)) = false /\
                 markers (fst (dispatch false sig st)) = []).
    { destruct sig as [chunk| |m]; cbn [dispatch fst snd].
      - unfold on_data. destruct (frame (buffer st) chunk) as [lines b].
        destruct (forEach_off lines (reasoningStarted st)) as [H1 H2].
        destruct (forEach false lines (reasoningStarted st)) as [o f].
        cbn [fst snd reasoningStarted] in *. split; [congruence|].
        rewrite markers_app, H2. now destruct (hasStarted st).
      - split; [exact Hst|]. unfold on_end. now rewrite Hst.
      - split; [exact Hst|reflexivity]. }
    destruct Hd as [Hd1 Hd2].
    destruct (dispatch false sig st) as [o s]. cbn [fst snd] in *.
    destruct (IH s Hd1) as [H1 H2].
    destruct (run false sigs s) as [o' s']. cbn [fst snd] in *.
    split; [assumption|]. now rewrite markers_app, Hd2, H2. }
  intros sigs. destruct (H sigs initial eq_refl) as [H1 H2].
  repeat split; [assumption..|]. now apply markers_nil_no_autoclose.
Qed.

(* ------------------------------------------------------------------ *)

Lemma utf8_run_needed_0 cp lower upper bs :
  utf8_run (cp, 0%N, lower, upper) bs = utf8_run utf8_init bs.
Proof. destruct bs; reflexivity. Qed.

(** Decoding bytes that end where a character ends, and then more. *)
Lemma utf8_run_app a :
  forall st b,
    (let '(_, needed, _, _) := utf8_end st a in needed = 0%N) ->
    utf8_run st (a ++ b) = utf8_run st a ++ utf8_run utf8_init b.
Proof.
  induction a as [|x a IH]; intros [[[cp needed] lower] upper] b H.
  - cbn [utf8_end] in H. subst needed. cbn [app].
    now rewrite utf8_run_needed_0.
  - cbn [app utf8_run utf8_end] in *.
    destruct (N.eqb needed 0).
    + destruct (utf8_lead (Byte.to_N x)) as [out st']. cbn [snd] in H.
      rewrite (IH st' b H). now rewrite app_assoc.
    + destruct ((lower <=? Byte.to_N x)%N && (Byte.to_N x <=? upper)%N).
      * destruct (N.eqb needed 1).
        -- now rewrite (IH _ b H).
        -- now rewrite (IH _ b H).
      * destruct (utf8_lead (Byte.to_N x)) as [out st']. cbn [snd] in H.
        rewrite (IH st' b H). cbn [app]. now rewrite app_assoc.
Qed.

Lemma Buffer_toString_app a b :
  complete a = true ->
  Buffer_toString (a ++ b) = Buffer_toString a ++ Buffer_toString b.
Proof.
  unfold complete, Buffer_toString. intros H.
  rewrite utf8_run_app.
  - apply flat_map_app.
  - destruct (utf8_end utf8_init a) as [[[cp needed] lower] upper].
    now apply N.eqb_eq.
Qed.

(** Bytes below 128 are characters of their own. *)
Lemma ascii_complete chunk :
  forallb is_ascii chunk = true -> complete chunk = true.
Proof.
  unfold complete.
  assert (H : forallb is_ascii chunk = true -> utf8_end utf8_init chunk = utf8_init).
  { induction chunk as [|x chunk IH]; [reflexivity|].
    cbn [forallb]. intros Hx. apply andb_prop in Hx as [Hx Hc].
    unfold utf8_init at 1. cbn [utf8_end]. rewrite N.eqb_refl.
    unfold utf8_lead. unfold is_ascii in Hx. apply N.ltb_lt in Hx.
    destruct (N.leb_spec (Byte.to_N x) 127) as [_|Hgt]; [|lia].
    cbn [snd]. now apply IH. }
  intros Ha. now rewrite (H Ha).
Qed.

Lemma decoded_complete chunks last :
  Forall (fun c => complete c = true) chunks ->
  Buffer_toString (List.concat chunks ++ last) = decoded (chunks ++ [last]).
Proof.
  induction 1 as [|c chunks Hc _ IH].
  - unfold decoded. cbn. now rewrite app_nil_r.
  - cbn [List.concat app]. rewrite <- app_assoc.
    rewrite (Buffer_toString_app _ _ Hc), IH. reflexivity.
Qed.

(** X2.  The way a stream is cut into chunks does not show in what the
    handler sends, as long as every cut falls where a character ends (so
    for every cut of a stream of ASCII bytes): the chunks give the same
    trace and the same state as their bytes delivered in one chunk. *)
Theorem cuts_between_characters_are_invisible :
  forall mode chunks last,
    Forall (fun c => complete c = true) chunks ->
    run mode (map Data (chunks ++ [last])) initial
    = run mode [Data (List.concat chunks ++ last)] initial.
Proof.
  intros mode chunks last H.
  assert (Hd : decoded [List.concat chunks ++ last]
               = decoded (chunks ++ [last])).
  { rewrite <- (decoded_complete chunks last H).
    unfold decoded. cbn [map List.concat]. now rewrite app_nil_r. }
  change [Data (List.concat chunks ++ last)]
    with (map Data [List.concat chunks ++ last]).
  destruct (chunks ++ [last]) as [|c cs] eqn:E;
    [now destruct chunks|].
  rewrite (run_data_text mode c cs).
  rewrite (run_data_text mode (List.concat chunks ++ last) []).
  cbv zeta. rewrite Hd. reflexivity.
Qed.

Lemma cuts_between_characters_are_invisible_witness :
  Forall (fun c => complete c = true) [bytes (js "data: [DO")] /\
  run true (map Data ([bytes (js "data: [DO")] ++ [bytes (js "NE]" ++ [LF])]))
      initial
  = run true [Data (List.concat [bytes (js "data: [DO")]
                    ++ bytes (js "NE]" ++ [LF]))] initial.
Proof.
  assert (H : Forall (fun c => complete c = true) [bytes (js "data: [DO")])
    by (constructor; [reflexivity | constructor]).
  split; [exact H|].
  exact (cuts_between_characters_are_invisible true
           [bytes (js "data: [DO")] (bytes (js "NE]" ++ [LF])) H).
Defined.

Lemma unterminated_last_line_is_dropped_witness :
  is_final EndOfStream = true /\
  no_lf (Buffer_toString (bytes scenario_content)) = true /\
  fst (run true (request (bytes (scenario_reasoning ++ [LF])
                            :: [] ++ [bytes scenario_content]) EndOfStream)
         initial)
  = fst (run true (request [bytes (scenario_reasoning ++ [LF])] EndOfStream)
           initial).
Proof.
  split; [reflexivity|]. split; [reflexivity|].
  exact (unterminated_last_line_is_dropped true
           (bytes (scenario_reasoning ++ [LF])) [] (bytes scenario_content)
           EndOfStream eq_refl eq_refl).
Defined.

(** ** Every write of the [data] listener is one event *)

Lemma split_nl_lines_no_lf s : Forall (fun l => no_lf l = true) (split_nl s).
Proof.
  induction s as [|c s IH]; [repeat constructor|].
  cbn [split_nl]. destruct (N.eqb c LF) eqn:Ec.
  - constructor; [reflexivity | exact IH].
  - destruct (split_nl s) as [|l ls]; [repeat constructor; cbn; now rewrite Ec|].
    inversion IH as [|? ? Hl Hls]; subst. constructor; [|exact Hls].
    cbn [no_lf forallb]. rewrite Ec. exact Hl.
Qed.

Lemma Forall_removelast {A} (P : A -> Prop) l : Forall P l -> Forall P (removelast l).
Proof.
  induction 1 as [|x l Hx Hl IH]; [constructor|].
  cbn [removelast]. destruct l; [constructor|]. constructor; assumption.
Qed.

Lemma frame_lines_no_lf b chunk :
  Forall (fun l => no_lf l = true) (fst (frame b chunk)).
Proof. unfold frame. cbn [fst]. apply Forall_removelast, split_nl_lines_no_lf. Qed.

Lemma feed_lines_no_lf chunks :
  forall b, Forall (fun l => no_lf l = true) (fst (feed b chunks)).
Proof.
  induction chunks as [|chunk chunks IH]; intros b; [constructor|].
  cbn [feed]. pose proof (frame_lines_no_lf b chunk) as Hf.
  destruct (frame b chunk) as [lines b']. specialize (IH b').
  destruct (feed b' chunks) as [lines' b'']. cbn [fst] in *.
  apply Forall_app. split; assumption.
Qed.

Lemma digits_fuel_no_lf fuel :
  forall n acc, no_lf acc = true -> no_lf (digits_fuel fuel n acc) = true.
Proof.
  induction fuel as [|fuel IH]; intros n acc H; [exact H|].
  cbn [digits_fuel].
  assert (H' : no_lf ((48 + n mod 10)%N :: acc) = true).
  { cbn [no_lf forallb]. fold (no_lf acc). rewrite H, andb_true_r.
    apply negb_true_iff, N.eqb_neq. generalize (n mod 10)%N. intros r.
    change LF with 10%N. lia. }
  destruct (N.eqb (n / 10) 0); [exact H' | now apply IH].
Qed.

Lemma decimal_digits_no_lf n : no_lf (decimal_digits n) = true.
Proof. apply digits_fuel_no_lf. reflexivity. Qed.

Lemma no_lf_firstn n s : no_lf s = true -> no_lf (firstn n s) = true.
Proof.
  revert n. induction s as [|c s IH]; intros [|n] H; try reflexivity.
  cbn [firstn no_lf forallb] in *. apply andb_prop in H as [Hc Hs].
  rewrite Hc. now apply IH.
Qed.

Lemma no_lf_skipn n s : no_lf s = true -> no_lf (skipn n s) = true.
Proof.
  revert n. induction s as [|c s IH]; intros [|n] H; try reflexivity; [exact H|].
  cbn [skipn]. cbn [no_lf forallb] in H. apply andb_prop in H as [_ Hs].
  now apply IH.
Qed.

Lemma zeros_no_lf n : no_lf (zeros n) = true.
Proof.
  unfold zeros. induction (Z.to_nat n) as [|k IH]; [reflexivity|].
  cbn [repeat no_lf forallb]. exact IH.
Qed.

Ltac no_lf_tac :=
  repeat (rewrite no_lf_app; apply andb_true_intro; split);
  try reflexivity;
  try apply decimal_digits_no_lf;
  try apply zeros_no_lf;
  try (apply no_lf_firstn; apply decimal_digits_no_lf);
  try (apply no_lf_skipn; apply decimal_digits_no_lf).

Lemma Number_toString_no_lf x : no_lf (Number_toString x) = true.
Proof.
  destruct x as [s|s| |s m e]; try reflexivity.
  - destruct s; reflexivity.
  - unfold Number_toString.
    destruct (shortest_digits _ _ _ _ _ _) as [[d k] n].
    cbv zeta.
    rewrite no_lf_app. apply andb_true_intro. split; [destruct s; reflexivity|].
    destruct ((k <=? n)%Z && (n <=? 21)%Z); [no_lf_tac|].
    destruct ((0 <? n)%Z && (n <=? 21)%Z); [no_lf_tac|].
    destruct ((-6 <? n)%Z && (n <=? 0)%Z); [no_lf_tac|].
    rewrite no_lf_app. apply andb_true_intro. split.
    + pose proof (decimal_digits_no_lf (Z.to_N d)) as Hd.
      destruct (decimal_digits (Z.to_N d)) as [|d0 [|d1 rest]]; exact Hd.
    + rewrite no_lf_app. apply andb_true_intro. split; [reflexivity|].
      rewrite no_lf_app. apply andb_true_intro. split;
        [destruct (n - 1 <? 0)%Z; reflexivity | apply decimal_digits_no_lf].
Qed.

Lemma hex_digit_not_lf n : (hex_digit n =? LF)%N = false.
Proof.
  unfold hex_digit. change LF with 10%N.
  destruct (N.ltb_spec n 10); apply N.eqb_neq; lia.
Qed.

Lemma unicode_escape_no_lf c : no_lf (unicode_escape c) = true.
Proof.
  unfold unicode_escape. cbn [no_lf forallb].
  rewrite !hex_digit_not_lf. reflexivity.
Qed.

Lemma quote_chars_no_lf_bounded n :
  forall s, (List.length s <= n)%nat -> no_lf (quote_chars s) = true.
Proof.
  induction n as [|n IH]; intros s Hn.
  - destruct s; [reflexivity | cbn in Hn; lia].
  - destruct s as [|c s]; [reflexivity|].
    cbn [List.length] in Hn.
    assert (Hs : no_lf (quote_chars s) = true) by (apply IH; lia).
    assert (Hu : no_lf (unicode_escape c ++ quote_chars s) = true)
      by (now rewrite no_lf_app, unicode_escape_no_lf, Hs).
    cbn [quote_chars].
    destruct (N.eqb c 8); [exact Hs|].
    destruct (N.eqb c 9); [exact Hs|].
    destruct (N.eqb c 10) eqn:E10; [exact Hs|].
    destruct (N.eqb c 12); [exact Hs|].
    destruct (N.eqb c 13); [exact Hs|].
    destruct (N.eqb c 34); [exact Hs|].
    destruct (N.eqb c 92); [exact Hs|].
    destruct (N.ltb c 32); [exact Hu|].
    assert (Hc : no_lf (c :: quote_chars s) = true).
    { cbn [no_lf forallb]. change LF with 10%N. rewrite E10. exact Hs. }
    destruct (is_high_surrogate c).
    + destruct s as [|c' s'']; [apply unicode_escape_no_lf|].
      destruct (is_low_surrogate c') eqn:El; [|exact Hu].
      cbn [no_lf forallb]. change LF with 10%N. rewrite E10.
      assert (E' : N.eqb c' 10 = false).
      { unfold is_low_surrogate in El. apply andb_prop in El as [El _].
        apply N.leb_le in El. apply N.eqb_neq. lia. }
      rewrite E'. cbn [negb andb]. apply IH. cbn [List.length] in Hn. lia.
    + destruct (is_low_surrogate c); [exact Hu | exact Hc].
Qed.

Lemma QuoteJSONString_no_lf s : no_lf (QuoteJSONString s) = true.
Proof.
  unfold QuoteJSONString. rewrite !no_lf_app.
  now rewrite (quote_chars_no_lf_bounded (List.length s) s (le_n _)).
Qed.

Lemma join_with_no_lf sep parts :
  no_lf sep = true ->
  Forall (fun t => no_lf t = true) parts ->
  no_lf (join_with sep parts) = true.
Proof.
  intros Hsep. induction 1 as [|t parts Ht Hp IH]; [reflexivity|].
  cbn [join_with]. destruct parts as [|u parts]; [exact Ht|].
  now rewrite !no_lf_app, Ht, Hsep, IH.
Qed.

Lemma insert_index_Forall {A} (P : jsstring * A -> Prop) i kv l :
  P kv -> Forall (fun e => P (snd e)) l ->
  Forall (fun e => P (snd e)) (insert_index i kv l).
Proof.
  intros Hkv. induction 1 as [|[j kv'] l Hj Hl IH]; cbn [insert_index].
  - repeat constructor. exact Hkv.
  - destruct (N.ltb i j); repeat constructor; assumption.
Qed.

Lemma enumeration_order_Forall {A} (P : jsstring * A -> Prop) ps :
  Forall P ps -> Forall P (enumeration_order ps).
Proof.
  intros H. unfold enumeration_order. apply Forall_app. split.
  - assert (G : forall acc : list (N * (jsstring * A)),
               Forall (fun e => P (snd e)) acc ->
               Forall (fun e => P (snd e))
                 (fold_left (fun acc kv => match array_index (fst kv) with
                                           | Some i => insert_index i kv acc
                                           | None => acc
                                           end) ps acc)).
    { induction H as [|kv ps Hkv Hps IH]; intros acc Hacc; [exact Hacc|].
      cbn [fold_left]. apply IH. destruct (array_index (fst kv)); [|exact Hacc].
      now apply insert_index_Forall. }
    specialize (G [] (Forall_nil _)). apply Forall_map. exact G.
  - apply Forall_forall. intros kv Hin. apply filter_In in Hin as [Hin _].
    rewrite Forall_forall in H. now apply H.
Qed.

Lemma value_nested_ind (P : value -> Prop) :
  P VUndefined -> P VNull -> (forall b, P (VBoolean b)) ->
  (forall n, P (VNumber n)) -> (forall s, P (VString s)) ->
  (forall l, Forall P l -> P (VArray l)) ->
  (forall ps, Forall (fun kv => P (snd kv)) ps -> P (VObject ps)) ->
  forall v, P v.
Proof.
  intros Hu Hn Hb Hnum Hs Ha Ho. fix IH 1. intros [| |b|n|s|l|ps].
  - exact Hu.
  - exact Hn.
  - apply Hb.
  - apply Hnum.
  - apply Hs.
  - apply Ha. induction l as [|x l IHl]; constructor; [apply IH | exact IHl].
  - apply Ho. induction ps as [|[k x] ps IHps]; constructor; [apply IH | exact IHps].
Qed.

Lemma serialize_no_lf v : forall t, serialize v = Some t -> no_lf t = true.
Proof.
  induction v as [| |b|n|s|l IHl|ps IHps] using value_nested_ind; intros t.
  - discriminate.
  - intros [= <-]. reflexivity.
  - intros [= <-]. destruct b; reflexivity.
  - intros [= <-]. destruct n; try reflexivity. apply Number_toString_no_lf.
  - intros [= <-]. apply QuoteJSONString_no_lf.
  - cbn [serialize]. intros [= <-].
    change (91%N :: ?x) with ([91%N] ++ x).
    rewrite !no_lf_app. rewrite join_with_no_lf; [reflexivity|reflexivity|].
    induction IHl as [|x l Hx Hl IH]; constructor; [|exact IH].
    destruct (serialize x) as [t|]; [now apply Hx | reflexivity].
  - cbn [serialize]. intros [= <-].
    change (123%N :: ?x) with ([123%N] ++ x).
    rewrite !no_lf_app. rewrite join_with_no_lf; [reflexivity|reflexivity|].
    apply Forall_map. apply enumeration_order_Forall.
    induction IHps as [|[k x] ps Hx Hps IH]; [constructor|].
    cbn [snd] in Hx. destruct (serialize x) as [t|]; [|exact IH].
    constructor; [|exact IH]. cbn [fst snd].
    change (no_lf (QuoteJSONString k ++ [58%N] ++ t) = true).
    rewrite !no_lf_app, QuoteJSONString_no_lf, (Hx t eq_refl). reflexivity.
Qed.

Lemma JSON_stringify_no_lf v : no_lf (JSON_stringify v) = true.
Proof.
  unfold JSON_stringify. destruct (serialize v) as [t|] eqn:E;
    [now apply (serialize_no_lf v) | reflexivity].
Qed.

Lemma process_line_one_event mode line flag e :
  no_lf line = true ->
  In e (fst (process_line mode line flag)) -> one_event e.
Proof.
  intros Hl. unfold process_line.
  destruct (truthy (VString (trim line))); cbn [negb]; [|intros []].
  destruct (startsWith line DATA_PREFIX); [|intros []].
  destruct (includes line DONE_TOKEN).
  - intros [<-|[]]. exists (js "data: [DONE]"). split; reflexivity.
  - unfold try_block. destruct (JSON_parse (slice line 6)) as [data|].
    + destruct (rewrite_event mode data flag) as [[[data' marks]|] started].
      * intros [<-|[]]. exists (js "data: " ++ JSON_stringify data'). split.
        -- cbn [text_of]. now rewrite <- app_assoc.
        -- now rewrite no_lf_app, JSON_stringify_no_lf.
      * intros [<-|[]]. exists line. split; [reflexivity | exact Hl].
    + intros [<-|[]]. exists line. split; [reflexivity | exact Hl].
Qed.

Lemma forEach_one_event mode lines :
  Forall (fun l => no_lf l = true) lines ->
  forall flag e, In e (fst (forEach mode lines flag)) -> one_event e.
Proof.
  induction 1 as [|line lines Hl Hls IH]; intros flag e; [intros []|].
  cbn [forEach]. pose proof (process_line_one_event mode line flag e Hl) as Hp.
  destruct (process_line mode line flag) as [out started].
  specialize (IH started e). destruct (forEach mode lines started) as [out' started'].
  cbn [fst] in *. intros Hin. apply in_app_or in Hin as [Hin|Hin]; auto.
Qed.

(** X6.  Whatever the backend sends, every write of the [data] listener
    is one event of the outbound stream: a text without a line feed,
    followed by two line feeds.  This holds for the frames built from a
    parsed event (JSON.stringify escapes the line feeds of its strings) and
    for the lines passed through after a parse failure. *)
Theorem every_write_is_one_event :
  forall mode chunks st e,
    In e (fst (run mode (map Data chunks) st)) ->
    e = WFlush \/ one_event e.
Proof.
  intros mode chunks st e. rewrite run_data_feed. cbn [fst].
  intros Hin. apply in_app_or in Hin as [Hin|Hin].
  - left. destruct (hasStarted st || _); [destruct Hin|].
    destruct Hin as [<-|[]]. reflexivity.
  - right. eapply forEach_one_event; [apply feed_lines_no_lf | exact Hin].
Qed.

Lemma every_write_is_one_event_witness :
  In WDone (fst (run true (map Data [bytes (scenario_done ++ [LF])]) initial)) /\
  (WDone = WFlush \/ one_event WDone).
Proof.
  assert (H : In WDone
                (fst (run true (map Data [bytes (scenario_done ++ [LF])]) initial)))
    by (vm_compute; right; left; reflexivity).
  split; [exact H|].
  exact (every_write_is_one_event true [bytes (scenario_done ++ [LF])] initial
           WDone H).
Defined.

(** ** The framer *)

Lemma split_nl_length s :
  List.length (split_nl s) = S (List.length (filter (N.eqb LF) s)).
Proof.
  induction s as [|c s IH]; [reflexivity|].
  cbn [split_nl filter]. rewrite (N.eqb_sym LF c).
  destruct (N.eqb c LF).
  - cbn [List.length]. now rewrite IH.
  - destruct (split_nl s) as [|l ls]; [discriminate IH | exact IH].
Qed.

Lemma removelast_length {A} (l : list A) :
  List.length (removelast l) = pred (List.length l).
Proof.
  induction l as [|x l IH]; [reflexivity|].
  cbn [removelast]. destruct l; [reflexivity|].
  cbn [List.length] in *. now rewrite IH.
Qed.

(** X7.  The framer neither drops nor duplicates text: over any sequence
    of chunks, the lines it yields, each followed by a line feed, and then
    the remainder it retains, are the decoded text of the chunks.  No line
    and no remainder holds a line feed, and there is one line for every
    line feed of the text. *)
Theorem framer_conserves_text :
  forall chunks,
    let lines := fst (feed [] chunks) in
    let rest := snd (feed [] chunks) in
    List.concat (map (fun l => l ++ [LF]) lines) ++ rest = decoded chunks /\
    Forall (fun l => no_lf l = true) lines /\
    no_lf rest = true /\
    List.length lines = List.length (filter (N.eqb LF) (decoded chunks)).
Proof.
  intros chunks lines rest. subst lines rest.
  rewrite (feed_text [] chunks eq_refl). cbn [fst snd app].
  fold (decoded chunks).
  split; [apply split_nl_join|].
  split; [apply Forall_removelast, split_nl_lines_no_lf|].
  split; [apply no_lf_split_nl, split_nl_last|].
  now rewrite removelast_length, split_nl_length.
Qed.

(** ** Lines that end with a carriage return *)

Lemma skip_space_cr s :
  skip_space (s ++ [CR]) = match skip_space s with
                           | [] => []
                           | c :: r => c :: r ++ [CR]
                           end.
Proof.
  induction s as [|c s IH]; [reflexivity|].
  cbn [app skip_space]. destruct (is_json_space c); [exact IH | reflexivity].
Qed.

Lemma parse_string_chars_cr n :
  forall s acc str r,
    (List.length s <= n)%nat ->
    parse_string_chars s acc = Some (str, r) ->
    parse_string_chars (s ++ [CR]) acc = Some (str, r ++ [CR]).
Proof.
  induction n as [|n IH]; intros s acc str r Hn H.
  - destruct s; [discriminate|simpl in Hn; lia].
  - destruct s as [|c s]; [discriminate|].
    cbn [parse_string_chars app] in H |- *. simpl in Hn.
    destruct (N.eqb c 34).
    + now injection H as <- <-.
    + destruct (N.eqb c 92).
      * destruct s as [|e s1]; [discriminate|]. cbn [app].
        destruct (N.eqb e 117).
        -- destruct s1 as [|h1 [|h2 [|h3 [|h4 s2]]]]; try discriminate.
           cbn [app]. destruct (hex4 h1 h2 h3 h4); [|discriminate].
           apply IH; [simpl in *; lia | exact H].
        -- destruct (simple_escape e); [|discriminate].
           apply IH; [simpl in *; lia | exact H].
      * destruct (N.ltb c 32); [discriminate|].
        apply IH; [simpl in *; lia | exact H].
Qed.

Lemma take_digits_cr s :
  take_digits (s ++ [CR]) = (fst (take_digits s), snd (take_digits s) ++ [CR]).
Proof.
  induction s as [|c s IH]; [reflexivity|].
  cbn [app take_digits]. destruct (is_digit c); [|reflexivity].
  rewrite IH. now destruct (take_digits s).
Qed.

Ltac number_step H :=
  cbv beta iota zeta in H; cbv beta iota zeta;
  cbn [app fst snd CR N.eqb Pos.eqb orb] in H |- *;
  first
    [ discriminate H
    | rewrite take_digits_cr
    | match goal with
      | |- context [take_digits (?a :: ?b ++ ?w)] =>
          change (take_digits (a :: b ++ w)) with (take_digits ((a :: b) ++ [CR]));
          rewrite take_digits_cr
      end
    | progress change (take_digits [CR]) with (@nil code_unit, [CR])
    | progress change (take_digits []) with (@nil code_unit, @nil code_unit) in H
    | match type of H with
      | context [take_digits ?x] => destruct (take_digits x) as [[|? ?] ?]
      end
    | match type of H with
      | context [match ?x with [] => _ | _ :: _ => _ end] => is_var x; destruct x
      end
    | match type of H with
      | context [if ?b then _ else _] => destruct b
      end
    | (injection H as <- <-; reflexivity) ].

Lemma parse_number_cr s v r :
  parse_number s = Some (v, r) ->
  parse_number (s ++ [CR]) = Some (v, r ++ [CR]).
Proof.
  intros H. unfold parse_number in H |- *.
  repeat number_step H.
Qed.

Lemma startsWith_cr prefix :
  forallb (fun p => negb (N.eqb p CR)) prefix = true ->
  forall s, startsWith (s ++ [CR]) prefix = startsWith s prefix.
Proof.
  induction prefix as [|p prefix IH]; intros Hp s; [now destruct s|].
  cbn [forallb] in Hp. apply andb_prop in Hp as [Hp Hps].
  destruct s as [|c s]; cbn [app startsWith].
  - apply negb_true_iff in Hp. now rewrite Hp.
  - now rewrite IH.
Qed.

Lemma includes_cr needle :
  needle <> [] ->
  forallb (fun p => negb (N.eqb p CR)) needle = true ->
  forall s, includes (s ++ [CR]) needle = includes s needle.
Proof.
  intros Hne Hn s. induction s as [|c s IH].
  - destruct needle as [|p needle]; [contradiction|].
    cbn [forallb] in Hn. apply andb_prop in Hn as [Hp _].
    apply negb_true_iff in Hp. cbn. now rewrite Hp.
  - change ((c :: s) ++ [CR]) with (c :: (s ++ [CR])).
    cbn [includes]. rewrite IH.
    change (c :: s ++ [CR]) with ((c :: s) ++ [CR]).
    now rewrite (startsWith_cr needle Hn).
Qed.

Lemma trim_start_cr s :
  trim_start (s ++ [CR]) = match trim_start s with
                           | [] => []
                           | t => t ++ [CR]
                           end.
Proof.
  induction s as [|c s IH]; [reflexivity|].
  cbn [app trim_start]. destruct (is_space c); [exact IH | reflexivity].
Qed.

Lemma trim_cr s : trim (s ++ [CR]) = trim s.
Proof.
  unfold trim. rewrite trim_start_cr.
  destruct (trim_start s) as [|c t]; [reflexivity|].
  rewrite rev_app_distr. reflexivity.
Qed.

Lemma skipn_cr n (s : jsstring) :
  (n <= List.length s)%nat -> skipn n (s ++ [CR]) = skipn n s ++ [CR].
Proof.
  intros H. rewrite skipn_app.
  replace (n - List.length s)%nat with 0%nat by lia. reflexivity.
Qed.

Lemma parse_cr f :
  (forall s v r, parse_value f s = Some (v, r) ->
                 parse_value f (s ++ [CR]) = Some (v, r ++ [CR])) /\
  (forall acc s v r, parse_elements f s acc = Some (v, r) ->
                     parse_elements f (s ++ [CR]) acc = Some (v, r ++ [CR])) /\
  (forall acc s v r, parse_members f s acc = Some (v, r) ->
                     parse_members f (s ++ [CR]) acc = Some (v, r ++ [CR])).
Proof.
  induction f as [|f (IHv & IHe & IHm)]; [repeat split; discriminate|].
  split; [|split].
  - intros s v r. cbn [parse_value]. rewrite skip_space_cr.
    destruct (skip_space s) as [|c r0]; [discriminate|].
    destruct (N.eqb c 123).
    { rewrite skip_space_cr. destruct (skip_space r0) as [|c' r']; [discriminate|].
      destruct (N.eqb c' 125); [now intros [= <- <-]|].
      change (c' :: r' ++ [CR]) with ((c' :: r') ++ [CR]). apply IHm. }
    destruct (N.eqb c 91).
    { rewrite skip_space_cr. destruct (skip_space r0) as [|c' r']; [discriminate|].
      destruct (N.eqb c' 93); [now intros [= <- <-]|].
      change (c' :: r' ++ [CR]) with ((c' :: r') ++ [CR]). apply IHe. }
    destruct (N.eqb c 34).
    { destruct (parse_string_chars r0 []) as [[str r']|] eqn:E; [|discriminate].
      intros [= <- <-].
      now rewrite (parse_string_chars_cr _ _ _ _ _ (le_n _) E). }
    change (c :: r0 ++ [CR]) with ((c :: r0) ++ [CR]).
    rewrite !startsWith_cr by reflexivity.
    destruct (startsWith (c :: r0) (js "true")) eqn:Et.
    { intros [= <- <-]. apply startsWith_length in Et.
      now rewrite (skipn_cr 4 (c :: r0) Et). }
    destruct (startsWith (c :: r0) (js "false")) eqn:Ef.
    { intros [= <- <-]. apply startsWith_length in Ef.
      now rewrite (skipn_cr 5 (c :: r0) Ef). }
    destruct (startsWith (c :: r0) (js "null")) eqn:En.
    { intros [= <- <-]. apply startsWith_length in En.
      now rewrite (skipn_cr 4 (c :: r0) En). }
    apply parse_number_cr.
  - intros acc s v r. cbn [parse_elements].
    destruct (parse_value f s) as [[x r0]|] eqn:E; [|discriminate].
    rewrite (IHv _ _ _ E). rewrite skip_space_cr.
    destruct (skip_space r0) as [|c r']; [discriminate|].
    destruct (N.eqb c 44); [apply IHe|].
    destruct (N.eqb c 93); [now intros [= <- <-] | discriminate].
  - intros acc s v r. cbn [parse_members]. rewrite skip_space_cr.
    destruct (skip_space s) as [|q r0]; [discriminate|].
    destruct (N.eqb q 34); [|discriminate].
    destruct (parse_string_chars r0 []) as [[k r1]|] eqn:E; [|discriminate].
    rewrite (parse_string_chars_cr _ _ _ _ _ (le_n _) E). rewrite skip_space_cr.
    destruct (skip_space r1) as [|c r2]; [discriminate|].
    destruct (N.eqb c 58); [|discriminate].
    destruct (parse_value f r2) as [[x r3]|] eqn:Ev; [|discriminate].
    rewrite (IHv _ _ _ Ev). rewrite skip_space_cr.
    destruct (skip_space r3) as [|d r4]; [discriminate|].
    destruct (N.eqb d 44); [apply IHm|].
    destruct (N.eqb d 125); [now intros [= <- <-] | discriminate].
Qed.

(** A text that [JSON.parse] accepts is accepted, with the same value,
    when a carriage return follows it. *)
Lemma JSON_parse_cr text v :
  JSON_parse text = Some v -> JSON_parse (text ++ [CR]) = Some v.
Proof.
  intros H. apply JSON_parse_fuel in H as (f & r & H & Hr).
  apply JSON_parse_fuel. exists f, (r ++ [CR]). split.
  - now apply (proj1 (parse_cr f)).
  - now rewrite skip_space_cr, Hr.
Qed.

(** X8.  A backend that ends its lines with CR LF is served like one
    that ends them with LF: a line followed by a carriage return gets the
    same answer and leaves the same flag as the line without it, whether
    it is skipped, is the termination line or is a frame that is rewritten.
    The one exception is the line that is passed through raw, where the
    carriage return is passed through with it. *)
Theorem carriage_return_is_tolerated :
  forall mode line flag,
    (forall raw, fst (process_line mode line flag) <> [WRaw raw]) ->
    process_line mode (line ++ [CR]) flag = process_line mode line flag.
Proof.
  intros mode line flag H. unfold process_line, try_block in H |- *.
  rewrite trim_cr, (startsWith_cr DATA_PREFIX eq_refl),
    (includes_cr DONE_TOKEN ltac:(discriminate) eq_refl).
  destruct (negb (truthy (VString (trim line)))); [reflexivity|].
  destruct (startsWith line DATA_PREFIX) eqn:Es; [|reflexivity].
  destruct (includes line DONE_TOKEN); [reflexivity|].
  apply startsWith_length in Es. unfold slice in H |- *.
  rewrite (skipn_cr 6 line Es).
  destruct (JSON_parse (skipn 6 line)) as [data|] eqn:Ep.
  - rewrite (JSON_parse_cr _ _ Ep).
    destruct (rewrite_event mode data flag) as [[[data' marks]|] started];
      [reflexivity|].
    exfalso. now apply (H line).
  - exfalso. now apply (H line).
Qed.

Lemma carriage_return_is_tolerated_witness :
  (forall raw, fst (process_line true scenario_content false) <> [WRaw raw]) /\
  process_line true (scenario_content ++ [CR]) false
    = process_line true scenario_content false.
Proof.
  assert (H : forall raw,
             fst (process_line true scenario_content false) <> [WRaw raw]).
  { intros raw E. vm_compute in E. discriminate E. }
  split; [exact H|].
  exact (carriage_return_is_tolerated true scenario_content false H).
Defined.

(** ** Model names *)

Lemma own_get_In ps k v : own_get ps k = Some v -> In (k, v) ps.
Proof.
  induction ps as [|[k' x] ps IH]; [discriminate|].
  cbn [own_get]. destruct (str_eqb k' k) eqn:E.
  - intros [= ->]. apply str_eqb_eq in E as ->. now left.
  - intros H. right. now apply IH.
Qed.

(** Every entry of the table is a name that is not empty. *)
Lemma MODEL_MAPPING_names k v :
  In (k, v) MODEL_MAPPING -> exists m, v = VString m /\ m <> [].
Proof.
  intros H. unfold MODEL_MAPPING in H. cbn [map fst snd] in H.
  repeat (destruct H as [H|H];
          [injection H as _ <-; eexists; split; [reflexivity | discriminate]|]).
  destruct H.
Qed.

(** X9.  Every model that [GET /v1/models] lists is a name that the
    chat handler resolves from the table: whatever the probe request
    would answer, [nimModel] is the entry of [MODEL_MAPPING] for that id, a
    name that is not empty. *)
Theorem listed_models_resolve :
  forall toLowerCase probe now entry,
    In entry (match field (list_models now) (js "data") with
              | VArray l => l
              | _ => []
              end) ->
    exists id nim,
      field entry (js "id") = VString id /\
      own_get MODEL_MAPPING id = Some (VString nim) /\ nim <> [] /\
      select_model toLowerCase probe (VString id) = Resolved (VString nim).
Proof.
  intros toLowerCase probe now entry H.
  cbn in H.
  repeat (destruct H as [H|H];
          [subst entry; eexists; eexists;
           split; [reflexivity|];
           split; [reflexivity|];
           split; [discriminate | reflexivity]|]).
  destruct H.
Qed.

Lemma fallback_tiers modelLower :
  In (fallback modelLower) [LLAMA_405B; LLAMA_70B; LLAMA_8B] /\
  fallback modelLower <> [].
Proof.
  unfold fallback.
  destruct (_ || _ || _); [split; [now left | discriminate]|].
  destruct (_ || _ || _); [split; [right; now left | discriminate]|].
  split; [right; right; now left | discriminate].
Qed.

(** X10.  For a name that is a string and is not the name of a property of
    [Object.prototype], the model selection always ends with a model name
    that is a string and is not empty: the table entry when there is one;
    otherwise the name itself when the probe answered 2xx and the name is
    not empty; otherwise one of the three fallback models.  It never
    throws and never leaves [nimModel] falsy. *)
Theorem selection_of_a_name :
  forall toLowerCase probe name,
    existsb (str_eqb name) OBJECT_PROTOTYPE = false ->
    exists m,
      select_model toLowerCase probe (VString name) = Resolved (VString m) /\
      m <> [] /\
      match own_get MODEL_MAPPING name with
      | Some entry => entry = VString m
      | None =>
          if probe_accepts probe && truthy (VString name) then m = name
          else m = fallback (toLowerCase name) /\
               In m [LLAMA_405B; LLAMA_70B; LLAMA_8B]
      end.
Proof.
  intros toLowerCase probe name Hp. unfold select_model.
  cbn [ToString]. rewrite Hp.
  destruct (own_get MODEL_MAPPING name) as [entry|] eqn:E.
  - apply own_get_In, MODEL_MAPPING_names in E as [m [-> Hm]].
    exists m. destruct m; [contradiction|]. cbn [truthy].
    repeat split. discriminate.
  - cbn [truthy]. destruct (probe_accepts probe); cbn [andb].
    + destruct name as [|c name]; cbn [truthy].
      * destruct (fallback_tiers (toLowerCase [])) as [Hin Hne].
        eexists. repeat split; assumption.
      * eexists. repeat split. discriminate.
    + destruct (fallback_tiers (toLowerCase name)) as [Hin Hne].
      eexists. repeat split; assumption.
Qed.

Lemma selection_of_a_name_witness :
  existsb (str_eqb (js "claude-opus-4")) OBJECT_PROTOTYPE = false /\
  exists m,
    select_model (fun s => s) (Some 404%Z) (VString (js "claude-opus-4"))
      = Resolved (VString m) /\
    m <> [] /\
    match own_get MODEL_MAPPING (js "claude-opus-4") with
    | Some entry => entry = VString m
    | None =>
        if probe_accepts (Some 404%Z) && truthy (VString (js "claude-opus-4"))
        then m = js "claude-opus-4"
        else m = fallback (js "claude-opus-4") /\
             In m [LLAMA_405B; LLAMA_70B; LLAMA_8B]
    end.
Proof.
  split; [reflexivity|].
  apply (selection_of_a_name (fun s => s) (Some 404%Z) (js "claude-opus-4")).
  reflexivity.
Defined.

Lemma listed_models_resolve_witness :
  let entry :=
    VObject [(js "id", VString (js "gpt-4o"));
             (js "object", VString (js "model"));
             (js "created", num 1700000000000);
             (js "owned_by", VString (js "nvidia-nim-proxy"))] in
  In entry (match field (list_models (fun _ => 1700000000000%N)) (js "data") with
            | VArray l => l
            | _ => []
            end) /\
  exists id nim,
    field entry (js "id") = VString id /\
    own_get MODEL_MAPPING id = Some (VString nim) /\ nim <> [] /\
    select_model (fun s => s) None (VString id) = Resolved (VString nim).
Proof.
  assert (H : In (VObject [(js "id", VString (js "gpt-4o"));
                           (js "object", VString (js "model"));
                           (js "created", num 1700000000000);
                           (js "owned_by", VString (js "nvidia-nim-proxy"))])
                (match field (list_models (fun _ => 1700000000000%N)) (js "data") with
                 | VArray l => l
                 | _ => []
                 end)).
  { simpl. right. right. right. left. reflexivity. }
  split; [exact H|].
  exact (listed_models_resolve (fun s => s) None (fun _ => 1700000000000%N) _ H).
Defined.

(** X18.  A model name that is the name of a property of
    [Object.prototype] ([constructor], [toString], [__proto__], ...) is
    found by [MODEL_MAPPING[model]] on the prototype: [nimModel] is a
    built-in function or object, not a model name, and neither the probe
    nor the fallback is reached, whatever the probe would answer. *)
Theorem inherited_name_is_taken :
  forall toLowerCase probe name,
    In name OBJECT_PROTOTYPE ->
    select_model toLowerCase probe (VString name) = Native name.
Proof.
  intros toLowerCase probe name H. unfold OBJECT_PROTOTYPE in H. cbn [map] in H.
  repeat (destruct H as [<-|H]; [reflexivity|]). destruct H.
Qed.

Lemma inherited_name_is_taken_witness :
  In (js "constructor") OBJECT_PROTOTYPE /\
  select_model (fun s => s) (Some 200%Z) (VString (js "constructor"))
    = Native (js "constructor").
Proof.
  assert (H : In (js "constructor") OBJECT_PROTOTYPE) by (simpl; left; reflexivity).
  split; [exact H|].
  exact (inherited_name_is_taken (fun s => s) (Some 200%Z) (js "constructor") H).
Defined.

(** ** The request sent to the backend *)

Lemma truthy_js_or a b : truthy b = true -> truthy (js_or a b) = true.
Proof. unfold js_or. destruct (truthy a) eqn:E; [now rewrite E | trivial]. Qed.

Lemma js_or_falsy a b : truthy a = false -> js_or a b = b.
Proof. unfold js_or. now intros ->. Qed.

Lemma js_or_truthy a b : truthy a = true -> js_or a b = a.
Proof. unfold js_or. now intros ->. Qed.

(** X11.  The request of server.js never carries a falsy temperature or
    a falsy max_tokens: a value of the client that is falsy (missing,
    [null], [0], the empty string) is replaced by the default 1 or 8192, a
    truthy one is passed on as it is, whatever its type.  So a client
    cannot ask for the temperature 0.  [stream] is passed on when truthy
    and is [false] otherwise: the backend is asked for a stream exactly
    when the handler goes on to read the response as one. *)
Theorem falsy_parameters_get_defaults :
  forall thinking nimModel b,
    let r := nimRequest thinking nimModel b in
    truthy (field r (js "temperature")) = true /\
    truthy (field r (js "max_tokens")) = true /\
    field r (js "temperature")
      = (if truthy (temperature b) then temperature b else num 1) /\
    field r (js "max_tokens")
      = (if truthy (max_tokens b) then max_tokens b else num 8192) /\
    field r (js "stream")
      = (if truthy (stream b) then stream b else VBoolean false) /\
    truthy (field r (js "stream")) = truthy (stream b) /\
    field (nimRequest thinking nimModel
             {| model := model b; messages := messages b;
                temperature := num 0; max_tokens := max_tokens b;
                stream := stream b |}) (js "temperature") = num 1.
Proof.
  intros thinking nimModel b r.
  assert (Ht : field r (js "temperature") = js_or (temperature b) (num 1)) by reflexivity.
  assert (Hm : field r (js "max_tokens") = js_or (max_tokens b) (num 8192)) by reflexivity.
  assert (Hs : field r (js "stream") = js_or (stream b) (VBoolean false)) by reflexivity.
  rewrite Ht, Hm, Hs. repeat split.
  - now apply truthy_js_or.
  - now apply truthy_js_or.
  - unfold js_or. now destruct (truthy (stream b)) eqn:E.
Qed.

Lemma nimRequest_v2_fields thinking nimModel b r2 :
  nimRequest_v2 thinking nimModel b = Some r2 ->
  field r2 (js "model") = nimModel /\
  field r2 (js "messages") = messages b /\
  field r2 (js "temperature") = match temperature b with
                                | VUndefined => num 1
                                | t => t
                                end /\
  field r2 (js "max_tokens") = js_or (max_tokens b) (num 8192) /\
  field r2 (js "stream") = js_or (stream b) (VBoolean false).
Proof.
  unfold nimRequest_v2. cbv zeta.
  destruct thinking; [|intros [= <-]; repeat split].
  destruct (includes_method nimModel (js "deepseek")) as [[|]|];
    [intros [= <-]; repeat split | | discriminate].
  destruct (includes_method nimModel (js "thinking")) as [[|]|];
    [intros [= <-]; repeat split | intros [= <-]; repeat split | discriminate].
Qed.

(** X12.  The second version of the handler builds the same request
    fields as server.js, but for the temperature: the two agree on it
    exactly when the client's temperature is truthy or is missing.  A
    temperature that is [0], [null], [false] or the empty string is kept
    by the second version and replaced by 1 in server.js. *)
Theorem versions_agree_but_on_falsy_temperature :
  forall thinking thinking2 nimModel b r2,
    nimRequest_v2 thinking2 nimModel b = Some r2 ->
    let r := nimRequest thinking nimModel b in
    field r2 (js "model") = field r (js "model") /\
    field r2 (js "messages") = field r (js "messages") /\
    field r2 (js "max_tokens") = field r (js "max_tokens") /\
    field r2 (js "stream") = field r (js "stream") /\
    (field r2 (js "temperature") = field r (js "temperature")
     <-> truthy (temperature b) = true \/ temperature b = VUndefined).
Proof.
  intros thinking thinking2 nimModel b r2 H r.
  apply nimRequest_v2_fields in H as (H1 & H2 & H3 & H4 & H5).
  rewrite H1, H2, H3, H4, H5.
  repeat split.
  - change (field r (js "temperature")) with (js_or (temperature b) (num 1)).
    unfold js_or. destruct (truthy (temperature b)) eqn:Et; [now left|].
    destruct (temperature b); try (now right); intros E; rewrite E in Et;
      discriminate Et.
  - change (field r (js "temperature")) with (js_or (temperature b) (num 1)).
    unfold js_or. intros [Et| ->]; [|reflexivity].
    rewrite Et. destruct (temperature b); try reflexivity. discriminate Et.
Qed.

Lemma versions_agree_but_on_falsy_temperature_witness :
  let b := {| model := VString (js "gpt-4"); messages := VArray [];
              temperature := num 0; max_tokens := VUndefined;
              stream := VUndefined |} in
  let nimModel := VString (js "deepseek-ai/deepseek-v3.1") in
  exists r2,
    nimRequest_v2 true nimModel b = Some r2 /\
    field r2 (js "temperature") = num 0 /\
    field (nimRequest true nimModel b) (js "temperature") = num 1 /\
    (field r2 (js "temperature") = field (nimRequest true nimModel b) (js "temperature")
     <-> truthy (temperature b) = true \/ temperature b = VUndefined).
Proof.
  intros b nimModel.
  exists (VObject ([(js "model", nimModel); (js "messages", messages b);
                    (js "temperature", num 0);
                    (js "top_p", VNumber (Number_of_decimal false 95 (-2)));
                    (js "max_tokens", num 8192); (js "stream", VBoolean false)]
                   ++ THINKING)).
  split; [reflexivity|]. split; [reflexivity|]. split; [reflexivity|].
  exact (proj2 (proj2 (proj2 (proj2
           (versions_agree_but_on_falsy_temperature true true nimModel b _ eq_refl))))).
Defined.

(** X13.  Where the two versions differ on the thinking parameter: with
    thinking mode enabled server.js sends [chat_template_kwargs] to every
    model; the second version sends it exactly to the models whose name
    holds [deepseek] or [thinking], and then the whole request is the one
    of server.js as soon as the temperature is truthy or missing. *)
Theorem thinking_parameter_by_model_name :
  forall m b,
    has_own (match nimRequest true (VString m) b with
             | VObject ps => ps | _ => [] end) (js "chat_template_kwargs") = true /\
    exists r2,
      nimRequest_v2 true (VString m) b = Some r2 /\
      has_own (match r2 with VObject ps => ps | _ => [] end)
              (js "chat_template_kwargs")
        = includes m (js "deepseek") || includes m (js "thinking") /\
      (r2 = nimRequest true (VString m) b
       <-> (includes m (js "deepseek") || includes m (js "thinking") = true /\
            (truthy (temperature b) = true \/ temperature b = VUndefined))).
Proof.
  intros m b. split; [reflexivity|].
  unfold nimRequest_v2, nimRequest. cbv zeta. cbn [includes_method].
  assert (Ht : match temperature b with VUndefined => num 1 | t => t end
               = js_or (temperature b) (num 1)
               <-> truthy (temperature b) = true \/ temperature b = VUndefined).
  { unfold js_or. split.
    - destruct (truthy (temperature b)) eqn:Et; [now left|].
      destruct (temperature b); try (now right); intros E; rewrite E in Et;
        discriminate Et.
    - intros [Et| ->]; [|reflexivity].
      rewrite Et. destruct (temperature b); try reflexivity. discriminate Et. }
  assert (Hyes : forall ps,
            VObject ((js "model", VString m) :: (js "messages", messages b)
                     :: (js "temperature",
                         match temperature b with VUndefined => num 1 | t => t end)
                     :: ps)
            = VObject ((js "model", VString m) :: (js "messages", messages b)
                       :: (js "temperature", js_or (temperature b) (num 1)) :: ps)
            <-> truthy (temperature b) = true \/ temperature b = VUndefined).
  { intros ps. rewrite <- Ht. split; [intros [= E]; exact E | intros ->; reflexivity]. }
  destruct (includes m (js "deepseek")); cbn [orb].
  - eexists. split; [reflexivity|]. split; [reflexivity|].
    cbn [app]. rewrite Hyes. tauto.
  - destruct (includes m (js "thinking")).
    + eexists. split; [reflexivity|]. split; [reflexivity|].
      cbn [app]. rewrite Hyes. tauto.
    + eexists. split; [reflexivity|]. split; [reflexivity|].
      split; [intros H; discriminate H | intros [H _]; discriminate H].
Qed.

(** ** Streamed and not streamed *)

Lemma streamed_text_app a : forall b flag,
  streamed_text (a ++ b) flag =
    (fst (streamed_text a flag) ++ fst (streamed_text b (snd (streamed_text a flag))),
     snd (streamed_text b (snd (streamed_text a flag)))).
Proof.
  induction a as [|data a IH]; intros b flag.
  - cbn [app streamed_text fst snd]. now destruct (streamed_text b flag).
  - cbn [app streamed_text].
    destruct (rewrite_event true data flag) as [[[data' marks]|] flag'].
    + rewrite IH. destruct (streamed_text a flag') as [t f]. cbn [fst snd].
      now rewrite app_assoc.
    + apply IH.
Qed.

Lemma streamed_reasoning rs : forall flag,
  streamed_text (map reasoning_event rs) flag =
    ((if negb flag && nonempty (List.concat rs) then THINK_OPEN else [])
       ++ List.concat rs,
     flag || nonempty (List.concat rs)).
Proof.
  induction rs as [|r rs IH]; intros flag.
  - cbn. now rewrite andb_false_r, orb_false_r.
  - cbn [map streamed_text List.concat]. destruct r as [|c r].
    + change (rewrite_event true (reasoning_event []) flag)
        with (Some (reasoning_event [], @nil marker), flag).
      cbv beta iota. rewrite IH. reflexivity.
    + destruct flag.
      * change (rewrite_event true (reasoning_event (c :: r)) true)
          with (Some (event_of_delta (VObject [(content, VString (c :: r))]),
                      @nil marker), true).
        cbv beta iota. rewrite IH. reflexivity.
      * change (rewrite_event true (reasoning_event (c :: r)) false)
          with (Some (event_of_delta
                        (VObject [(content, VString (THINK_OPEN ++ c :: r))]),
                      [Open]), true).
        cbv beta iota. rewrite IH. cbn [negb andb orb app nonempty].
        change (text_of_value _) with (THINK_OPEN ++ c :: r).
        now rewrite <- app_assoc.
Qed.

Lemma streamed_content cs : forall flag,
  streamed_text (map content_event cs) flag =
    ((if flag && nonempty (List.concat cs) then THINK_CLOSE else [])
       ++ List.concat cs,
     flag && negb (nonempty (List.concat cs))).
Proof.
  induction cs as [|c cs IH]; intros flag.
  - cbn. now rewrite andb_false_r, andb_true_r.
  - cbn [map streamed_text List.concat]. destruct c as [|c0 c].
    + change (rewrite_event true (content_event []) flag)
        with (Some (content_event [], @nil marker), flag).
      cbv beta iota. rewrite IH. reflexivity.
    + destruct flag.
      * change (rewrite_event true (content_event (c0 :: c)) true)
          with (Some (event_of_delta
                        (VObject [(content, VString (THINK_CLOSE ++ c0 :: c))]),
                      [Close]), false).
        cbv beta iota. rewrite IH. cbn [negb andb orb app nonempty].
        change (text_of_value _) with (THINK_CLOSE ++ c0 :: c).
        now rewrite <- app_assoc.
      * change (rewrite_event true (content_event (c0 :: c)) false)
          with (Some (event_of_delta (VObject [(content, VString (c0 :: c))]),
                      @nil marker), false).
        cbv beta iota. rewrite IH. reflexivity.
Qed.

(** The frame of the [end] listener, as a client reads it. *)
Example auto_close_on_the_wire :
  exists payload event,
    text_of WAutoClose = Some (DATA_PREFIX ++ payload ++ [LF; LF]) /\
    JSON_parse payload = Some event /\
    content_of event = Some (VString AUTO_CLOSE_TEXT) /\
    THINK_CLOSE = AUTO_CLOSE_TEXT ++ [LF; LF].
Proof.
  exists (jq "{'choices':[{'delta':{'content':'\n</think>'}}]}").
  eexists. split; [reflexivity|]. split; [vm_compute; reflexivity|].
  split; reflexivity.
Qed.

(** X14.  A reply that is streamed as reasoning fragments followed by
    content fragments reads, once the client has appended the frames, as
    the reply that is not streamed, when the backend puts the same
    reasoning and the same content into one message: the text is the same,
    markers included.  The one difference: when there is reasoning and no
    content the block is still open at the end of the stream; the
    message that is not streamed closes it with THINK_CLOSE, which is the
    text of the frame of the [end] listener followed by two line feeds. *)
Theorem streamed_and_not_streamed_agree :
  forall rs cs role index finish,
    let events := map reasoning_event rs ++ map content_event cs in
    let message :=
      VObject [(js "role", role); (content, VString (List.concat cs));
               (reasoning_content, VString (List.concat rs))] in
    let choice :=
      VObject [(js "index", index); (js "message", message);
               (js "finish_reason", finish)] in
    exists out,
      transform_choice true choice = Some out /\
      message_content out =
        Some (VString (fst (streamed_text events false)
                       ++ if snd (streamed_text events false)
                          then AUTO_CLOSE_TEXT ++ [LF; LF] else [])) /\
      snd (streamed_text events false)
        = nonempty (List.concat rs) && negb (nonempty (List.concat cs)).
Proof.
  intros rs cs role index finish events message choice.
  subst events. rewrite streamed_text_app, streamed_reasoning, streamed_content.
  cbn [fst snd negb andb orb]. subst choice message.
  destruct (List.concat rs) as [|r0 R]; destruct (List.concat cs) as [|c0 C];
    cbn [nonempty andb negb app];
    (eexists; split; [reflexivity|]; split; [|reflexivity]).
  - reflexivity.
  - cbn. now rewrite app_nil_r.
  - cbn. do 2 f_equal. now rewrite app_nil_r, <- !app_assoc.
  - cbn. do 2 f_equal. now rewrite app_nil_r, <- !app_assoc.
Qed.

(** ** The reply that is not streamed *)

Lemma transform_choice_shape mode choice out :
  transform_choice mode choice = Some out ->
  keys out = [js "index"; js "message"; js "finish_reason"] /\
  keys (field out (js "message")) = [js "role"; content] /\
  field out (js "index") = field choice (js "index") /\
  field out (js "finish_reason") = field choice (js "finish_reason") /\
  field (field out (js "message")) (js "role")
    = field (field choice (js "message")) (js "role").
Proof.
  unfold transform_choice.
  destruct (Get choice (Named (js "message"))) as [message|] eqn:Em; [|discriminate].
  cbv zeta.
  match goal with
  | |- match ?t with _ => _ end = _ -> _ => destruct t as [text|]; [|discriminate]
  end.
  destruct (Get message (Named (js "role"))) as [role|] eqn:Er; [|discriminate].
  intros [= <-]. repeat split.
  change (role = field (field choice (js "message")) (js "role")).
  unfold field, GetOptional. now rewrite Em, Er.
Qed.

Lemma map_choices_Forall2 mode l : forall cs,
  map_choices mode l = Some cs ->
  Forall2 (fun choice out => transform_choice mode choice = Some out) l cs.
Proof.
  induction l as [|choice l IH]; intros cs.
  - intros [= <-]. constructor.
  - cbn [map_choices].
    destruct (transform_choice mode choice) as [c|] eqn:Ec; [|discriminate].
    destruct (map_choices mode l) as [cs'|]; [|discriminate].
    intros [= <-]. constructor; [exact Ec | now apply IH].
Qed.

(** X15.  When the reply that is not streamed is built, it has the six
    fields of a chat completion in their order, a [usage] that is truthy,
    and one choice for every choice of the backend, in the same order;
    every choice has the three keys [index], [message], [finish_reason] and
    a message with the two keys [role], [content]: whatever else the
    backend put into a choice or a message, [reasoning_content] included,
    is not passed on. *)
Theorem reply_has_the_openai_shape :
  forall mode now1 now2 model data out,
    openaiResponse mode now1 now2 model data = Some out ->
    keys out = map js ["id"; "object"; "created"; "model"; "choices"; "usage"]%string /\
    field out (js "model") = model /\
    truthy (field out (js "usage")) = true /\
    exists l cs,
      field data (js "choices") = VArray l /\
      field out (js "choices") = VArray cs /\
      Forall2 (fun choice c =>
                 keys c = [js "index"; js "message"; js "finish_reason"] /\
                 keys (field c (js "message")) = [js "role"; content] /\
                 field c (js "index") = field choice (js "index") /\
                 field c (js "finish_reason") = field choice (js "finish_reason") /\
                 field (field c (js "message")) (js "role")
                   = field (field choice (js "message")) (js "role")) l cs.
Proof.
  intros mode now1 now2 model data out. unfold openaiResponse.
  destruct (Get data choices) as [[| | | | |l|]|] eqn:Ed; try discriminate.
  destruct (map_choices mode l) as [cs|] eqn:Ec; [|discriminate].
  intros [= <-]. split; [reflexivity|]. split; [reflexivity|].
  split.
  - change (truthy (js_or (GetOptional data (Named (js "usage"))) NO_USAGE) = true).
    unfold js_or. destruct (truthy (GetOptional data _)) eqn:Et; [exact Et | reflexivity].
  - exists l, cs. split.
    + unfold field, GetOptional. fold choices. now rewrite Ed.
    + split; [reflexivity|].
      apply map_choices_Forall2 in Ec.
      revert Ec. apply Forall2_impl. intros choice c Hc.
      now apply transform_choice_shape in Hc.
Qed.

Lemma js_add_strings a b : js_add (VString a) (VString b) = Some (VString (a ++ b)).
Proof. reflexivity. Qed.

Lemma transform_choice_fails mode choice :
  text_message choice = true ->
  (transform_choice mode choice = None <-> has_message choice = false).
Proof.
  unfold text_message, transform_choice, has_message.
  destruct (Get choice (Named (js "message"))) as [m|]; [|tauto].
  intros Ht. apply andb_prop in Ht as [Hc Hr]. unfold field in Hc, Hr.
  cbv zeta.
  assert (Hfull : exists s, js_or (GetOptional m (Named content)) (VString [])
                            = VString s).
  { unfold js_or. destruct (GetOptional m (Named content)) as [| | | |[|c s]| |];
      try discriminate Hc; cbn [truthy]; eexists; reflexivity. }
  destruct Hfull as [s ->].
  assert (Htext : exists text,
            (if mode && truthy (GetOptional m (Named reasoning_content))
             then match js_add (VString THINK_OPEN)
                          (GetOptional m (Named reasoning_content)) with
                  | Some a => match js_add a (VString THINK_CLOSE) with
                              | Some b => js_add b (VString s)
                              | None => None
                              end
                  | None => None
                  end
             else Some (VString s)) = Some text).
  { destruct (GetOptional m (Named reasoning_content)) as [| | | |[|c r]| |];
      try discriminate Hr; cbn [truthy]; rewrite ?andb_false_r;
      try (eexists; reflexivity).
    destruct mode; cbn [andb]; [|eexists; reflexivity].
    rewrite js_add_strings, js_add_strings, js_add_strings. eexists; reflexivity. }
  destruct Htext as [text ->].
  destruct m; cbn [Get nullish negb]; split; intros H; try discriminate H;
    reflexivity.
Qed.

Lemma map_choices_fails mode l :
  forallb text_message l = true ->
  (map_choices mode l = None <-> forallb has_message l = false).
Proof.
  induction l as [|choice l IH]; [cbn; split; discriminate|].
  cbn [forallb map_choices]. intros H. apply andb_prop in H as [Ht Hl].
  specialize (IH Hl). pose proof (transform_choice_fails mode choice Ht) as Hc.
  destruct (transform_choice mode choice) as [c|].
  - destruct (has_message choice); [|now destruct Hc as [_ Hc]; specialize (Hc eq_refl)].
    cbn [andb]. destruct (map_choices mode l) as [cs|].
    + split; [discriminate|]. intros H. apply IH in H. discriminate H.
    + split; [intros _; now apply IH | reflexivity].
  - destruct Hc as [Hc _]. rewrite (Hc eq_refl). split; reflexivity.
Qed.

(** X16.  When the choices of the backend are an array whose messages keep
    [content] and [reasoning_content] to text, building the reply throws
    exactly when one of the choices has no message ([choice.message.role]
    is read without the [?.] that guards the two reads before it): one
    such choice loses the whole reply, however many good choices there
    are. *)
Theorem reply_fails_without_a_message :
  forall mode now1 now2 model data l,
    field data (js "choices") = VArray l ->
    forallb text_message l = true ->
    (openaiResponse mode now1 now2 model data = None
     <-> forallb has_message l = false).
Proof.
  intros mode now1 now2 model data l Hd Ht. unfold openaiResponse.
  assert (Hg : Get data choices = Some (VArray l)).
  { unfold field, GetOptional in Hd. fold choices in Hd.
    destruct (Get data choices) as [v|]; [now subst v | discriminate Hd]. }
  rewrite Hg. pose proof (map_choices_fails mode l Ht) as Hm.
  destruct (map_choices mode l) as [cs|].
  - split; [discriminate|]. intros H. apply Hm in H. discriminate H.
  - split; [intros _; now apply Hm | reflexivity].
Qed.

Lemma reply_fails_without_a_message_witness :
  let good :=
    VObject [(js "index", num 0);
             (js "message", VObject [(js "role", VString (js "assistant"));
                                     (content, VString (js "hi"))]);
             (js "finish_reason", VString (js "stop"))] in
  let bad := VObject [(js "index", num 1)] in
  let data := VObject [(js "choices", VArray [good; bad])] in
  field data (js "choices") = VArray [good; bad] /\
  forallb text_message [good; bad] = true /\
  forallb has_message [good; bad] = false /\
  openaiResponse true 0 0 (VString (js "gpt-4")) data = None.
Proof.
  intros good bad data.
  split; [reflexivity|]. split; [reflexivity|]. split; [reflexivity|].
  apply (proj2 (reply_fails_without_a_message true 0%N 0%N (VString (js "gpt-4"))
                  data [good; bad] eq_refl eq_refl)).
  reflexivity.
Defined.

Lemma reply_has_the_openai_shape_witness :
  let choice :=
    VObject [(js "index", num 0);
             (js "message", VObject [(js "role", VString (js "assistant"));
                                     (content, VString (js "hi"));
                                     (reasoning_content, VString (js "hm"))]);
             (js "finish_reason", VString (js "stop"));
             (js "logprobs", VNull)] in
  let data := VObject [(js "choices", VArray [choice])] in
  exists out,
    openaiResponse true 0 0 (VString (js "gpt-4")) data = Some out /\
    keys out = map js ["id"; "object"; "created"; "model"; "choices"; "usage"]%string /\
    field out (js "usage") = NO_USAGE /\
    message_content (GetOptional (field out (js "choices")) (Index 0))
      = Some (VString (THINK_OPEN ++ js "hm" ++ THINK_CLOSE ++ js "hi")).
Proof.
  intros choice data. eexists.
  split; [vm_compute; reflexivity|].
  split; [|split; reflexivity].
  exact (proj1 (reply_has_the_openai_shape true 0%N 0%N (VString (js "gpt-4"))
                  data _ eq_refl)).
Defined.

(** ** The answer to a failure *)

(** X17.  Whatever was thrown, the error answer has a status that is not
    falsy (the status of the backend's answer when it has a truthy one, 500
    otherwise), repeats that status as [code], and has a message that is
    not falsy: the backend's [detail], else the message of the error, else
    a fixed text.  An error without a response, such as the TypeError of
    the handler's own code, is answered with 500 and its message. *)
Theorem error_answer_is_complete :
  forall error,
    let status := fst (error_response error) in
    let answer := field (snd (error_response error)) (js "error") in
    truthy status = true /\
    (status = of_response error (js "status") \/ status = num 500) /\
    field answer (js "code") = status /\
    truthy (field answer (js "message")) = true /\
    keys answer = map js ["message"; "type"; "code"; "nvidia_error"]%string /\
    forall msg,
      error_response (VObject [(js "message", VString msg)])
      = (num 500,
         VObject [(js "error",
                   VObject [(js "message",
                             VString (match msg with
                                      | [] => js "Internal server error"
                                      | _ => msg
                                      end));
                            (js "type", VString (js "invalid_request_error"));
                            (js "code", num 500);
                            (js "nvidia_error", VUndefined)])]).
Proof.
  intros error status answer. subst status answer.
  unfold error_response. cbv zeta. cbn [fst snd].
  set (st := of_response error (js "status")).
  set (detail := GetOptional (of_response error (js "data")) (Named (js "detail"))).
  set (m := GetOptional error (Named (js "message"))).
  split; [unfold js_or; destruct (truthy st) eqn:E; [exact E | reflexivity]|].
  split; [unfold js_or; destruct (truthy st); [now left | now right]|].
  split; [reflexivity|].
  split.
  - change (truthy (js_or (js_or detail m) (VString (js "Internal server error")))
            = true).
    unfold js_or at 1. destruct (truthy (js_or detail m)) eqn:E; [exact E | reflexivity].
  - split; [reflexivity|]. intros [|c msg]; reflexivity.
Qed.

(** ** The frame of the [error] listener *)

Lemma parse_string_chars_plain m : forall acc rest,
  plain m = true ->
  parse_string_chars (m ++ 34%N :: rest) acc = Some (rev acc ++ m, rest).
Proof.
  induction m as [|c m IH]; intros acc rest H.
  - cbn. now rewrite app_nil_r.
  - cbn [plain forallb] in H. apply andb_prop in H as [Hc Hm].
    unfold plain_char in Hc. apply andb_prop in Hc as [Hc H32].
    apply andb_prop in Hc as [H34 H92].
    apply negb_true_iff in H34, H92, H32.
    cbn [app parse_string_chars]. rewrite H34, H92, H32.
    rewrite (IH _ _ Hm). cbn [rev]. now rewrite <- app_assoc.
Qed.

Lemma plain_no_lf m : plain m = true -> no_lf m = true.
Proof.
  induction m as [|c m IH]; [reflexivity|].
  intros H. cbn [plain forallb] in H. apply andb_prop in H as [Hc Hm].
  cbn [no_lf forallb]. fold (no_lf m). rewrite (IH Hm), andb_true_r.
  unfold plain_char in Hc. apply andb_prop in Hc as [_ H32].
  apply negb_true_iff, N.ltb_ge in H32. apply negb_true_iff, N.eqb_neq.
  change LF with 10%N. lia.
Qed.

Lemma error_frame_without_lf message :
  no_lf message = true -> one_event (WError message).
Proof.
  intros H. exists (jq "data: {'error': '" ++ message ++ jq "'}"). split.
  - cbn [text_of]. now rewrite <- !app_assoc.
  - now rewrite !no_lf_app, H.
Qed.

(** X19.  The frame of the [error] listener is one event exactly when the
    message of the error holds no line feed: the message is put between the
    quotes as it is. *)
Theorem error_frame_is_one_event_iff :
  forall message,
    one_event (WError message) <-> no_lf message = true.
Proof.
  intros message. unfold one_event. cbn [text_of]. split.
  - intros (payload & E & Hp).
    assert (E' : (jq "data: {'error': '" ++ message ++ jq "'}") ++ [LF; LF]
                 = payload ++ [LF; LF]).
    { rewrite <- !app_assoc. injection E as E. exact E. }
    apply app_inv_tail in E'. subst payload.
    rewrite !no_lf_app in Hp. apply andb_prop in Hp as [_ Hp].
    now apply andb_prop in Hp as [Hp _].
  - apply error_frame_without_lf.
Qed.

(** X20.  For a message without quote, backslash or control character the
    frame of the [error] listener is one event whose payload a client
    parses to an object with the one field [error], holding the
    message. *)
Theorem error_frame_of_a_plain_message :
  forall message,
    plain message = true ->
    one_event (WError message) /\
    exists payload,
      text_of (WError message) = Some (DATA_PREFIX ++ payload ++ [LF; LF]) /\
      JSON_parse payload = Some (VObject [(js "error", VString message)]).
Proof.
  intros message H. split.
  - now apply error_frame_without_lf, plain_no_lf.
  - exists (jq "{'error': '" ++ message ++ jq "'}"). split.
    { cbn [text_of]. f_equal. rewrite <- !app_assoc. reflexivity. }
    apply JSON_parse_fuel. exists 3%nat, []. split; [|reflexivity].
    cbn. rewrite (parse_string_chars_plain message [] [125%N] H).
    reflexivity.
Qed.

Lemma error_frame_of_a_plain_message_witness :
  plain (js "socket hang up") = true /\
  one_event (WError (js "socket hang up")) /\
  exists payload,
    text_of (WError (js "socket hang up"))
      = Some (DATA_PREFIX ++ payload ++ [LF; LF]) /\
    JSON_parse payload
      = Some (VObject [(js "error", VString (js "socket hang up"))]).
Proof.
  split; [reflexivity|].
  exact (error_frame_of_a_plain_message (js "socket hang up") eq_refl).
Defined.
